(** * Virtual model asset resolver of the bilingual reader

    A shallow embedding of the three responders that answer requests
    for custom model files (the service worker [public/sw.js], the
    [window.fetch] interceptor at the top of the application, and the
    [custom-model-404] middleware of [vite.config.ts]) and of the
    application effects that feed them (the configuration parser, the
    Cache API synchronisation and [loadOfflineModel]), followed by the
    RESET button and the restoration at startup, the translation
    history, [splitIntoSentences] and the extraction of the text pairs
    of a file.

    Conventions of the embedding:
    - a JavaScript string is a [string]; its characters are read as the
      bytes of its UTF-8 encoding, and [toLowerCase] acts on the ASCII
      letters, which is what the keyword tests of the source observe;
    - where the source counts the length of a string or tests it for
      white space ([splitIntoSentences]), the string is the list of its
      UTF-16 code units;
    - a [Map<string, Blob>] is an association list in insertion order;
    - a Cache is the list of its (URL, response) pairs in insertion
      order, and a request URL is the string handed to the Cache API
      resolved against the page origin by concatenation;
    - [console] output and the debug log are diagnostics and are left
      out of the effects; an [await] is the sequencing of the steps around it, and the
      calls of the Cache API and of IndexedDB succeed, so that the
      [catch] blocks that only log are not entered. *)

From Stdlib Require Import Ascii.
From stdpp Require Import base option list strings gmap sorting.

(** ** JavaScript string primitives used by the sources *)
Module JS.

(** [c.toLowerCase()] on one ASCII character. *)
Definition lower_ascii (c : ascii) : ascii :=
  let n := nat_of_ascii c in
  if (65 <=? n)%nat && (n <=? 90)%nat then ascii_of_nat (n + 32) else c.

(** [s.toLowerCase()] *)
Fixpoint toLowerCase (s : string) : string :=
  match s with
  | EmptyString => EmptyString
  | String c s' => String (lower_ascii c) (toLowerCase s')
  end.

(** [s.startsWith(p)] *)
Definition startsWith (s p : string) : bool := String.prefix p s.

(** [s.includes(sub)] *)
Fixpoint includes (s sub : string) : bool :=
  if startsWith s sub then true
  else match s with
       | EmptyString => false
       | String _ s' => includes s' sub
       end.

(** [s.endsWith(suf)] *)
Fixpoint endsWith (s suf : string) : bool :=
  if String.eqb s suf then true
  else match s with
       | EmptyString => false
       | String _ s' => endsWith s' suf
       end.

(** [s.split(sep)[0]] for a non-empty separator: the text before the
    first occurrence of [sep], the whole string when there is none. *)
Fixpoint split_head (sep s : string) : string :=
  if startsWith s sep then EmptyString
  else match s with
       | EmptyString => EmptyString
       | String c s' => String c (split_head sep s')
       end.

(** The text following the last separator that [s.split(sep)] finds
    when it scans [s] from the left, [None] when it finds none.
    [skip] counts the characters of a separator already recognised
    that are still to be passed over, so that occurrences do not
    overlap, as in [String.prototype.split]. *)
Fixpoint after_last_sep (sep s : string) (skip : nat) : option string :=
  match s with
  | EmptyString => None
  | String _ s' =>
      match skip with
      | S k => after_last_sep sep s' k
      | O =>
          if startsWith s sep then
            match after_last_sep sep s' (String.length sep - 1) with
            | Some r => Some r
            | None => Some (String.substring (String.length sep)
                              (String.length s - String.length sep) s)
            end
          else after_last_sep sep s' 0
      end
  end.

(** [parts = s.split(sep); parts[parts.length - 1]], which is also
    [s.split(sep).pop()], for a non-empty separator. *)
Definition split_last (sep s : string) : string :=
  default s (after_last_sep sep s 0).

(** Truthiness of a string value: only the empty string is falsy. *)
Definition truthy (s : string) : bool := negb (String.eqb s "").

(** [a || b] on strings. *)
Definition or_else (a b : string) : string := if truthy a then a else b.

End JS.

(** ** Association lists in insertion order *)
Section alist.
Context {V : Type}.

Fixpoint alist_get (l : list (string * V)) (k : string) : option V :=
    match l with
    | [] => None
    | (k', v) :: l' => if decide (k' = k) then Some v else alist_get l' k
    end.

Definition alist_remove (l : list (string * V)) (k : string) : list (string * V) :=
    List.filter (fun e => negb (bool_decide (e.1 = k))) l.

Definition alist_keys (l : list (string * V)) : list string := map fst l.
End alist.

(** ** Blobs, responses, maps of files and the Cache API *)

(** A [Blob] (a [File] is one): its bytes and its declared type. *)
Record Blob := mkBlob { blob_data : string; blob_type : string }.

Global Instance Blob_eq_dec : EqDecision Blob.
Proof. solve_decision. Defined.

Definition blob_size (b : Blob) : nat := String.length b.(blob_data).
(** [await blob.text()] *)
Definition blob_text (b : Blob) : string := b.(blob_data).

(** [Map<string, Blob>]: [get], [set], [keys], [size]. *)
Definition Files := list (string * Blob).

Definition Map_get (m : Files) (k : string) : option Blob := alist_get m k.
Fixpoint Map_set (m : Files) (k : string) (b : Blob) : Files :=
  match m with
  | [] => [(k, b)]
  | (k', b') :: m' =>
      if decide (k' = k) then (k, b) :: m' else (k', b') :: Map_set m' k b
  end.
Definition Map_keys (m : Files) : list string := alist_keys m.
Definition Map_size (m : Files) : nat := length m.
(** The keys of a [Map] are pairwise distinct. *)
Definition Map_wf (m : Files) : Prop := NoDup (Map_keys m).

Global Instance Map_wf_dec (m : Files) : Decision (Map_wf m).
Proof. unfold Map_wf. apply _. Defined.

(** A [Headers] object: names are case-insensitive and kept in lower
    case; [set] replaces the value of a name. *)
Definition Headers := gmap string string.
Definition headers_set (h : Headers) (name value : string) : Headers :=
  <[JS.toLowerCase name := value]> h.
Definition headers_of (l : list (string * string)) : Headers :=
  foldl (fun h nv => headers_set h nv.1 nv.2) ∅ l.

Inductive Body := BodyBlob (b : Blob) | BodyText (s : string).

Record Response := mkResponse {
  status : nat;
  statusText : string;
  headers : Headers;
  body : Body
}.

(** [new Response(blob)]: status 200, the blob's type as content type
    when it has one. *)
Definition Response_of_blob (b : Blob) : Response :=
  mkResponse 200 ""
    (if JS.truthy b.(blob_type) then headers_of [("Content-Type", b.(blob_type))] else ∅)
    (BodyBlob b).

(** [new Response(blob, { status, headers })] *)
Definition Response_blob_init (b : Blob) (st : nat) (h : list (string * string)) : Response :=
  mkResponse st "" (headers_of h) (BodyBlob b).

(** [new Response(text, { status, headers })] *)
Definition Response_text_init (s : string) (st : nat) (h : list (string * string)) : Response :=
  mkResponse st "" (headers_of h) (BodyText s).

(** A Cache: request URL and response, in insertion order. *)
Definition Cache := list (string * Response).

Definition cache_match (c : Cache) (url : string) : option Response := alist_get c url.
Definition cache_delete (c : Cache) (url : string) : Cache := alist_remove c url.
(** [cache.put]: the entries of the same request are removed and the
    new pair is appended. *)
Definition cache_put (c : Cache) (url : string) (r : Response) : Cache :=
  alist_remove c url ++ [(url, r)].
Definition cache_keys (c : Cache) : list string := alist_keys c.

(** [caches]: the named caches of the origin, in creation order. *)
Definition CacheStorage := list (string * Cache).

Definition caches_keys (cs : CacheStorage) : list string := alist_keys cs.
(** [await caches.open(name)]: the named cache, empty when new. *)
Definition caches_open (cs : CacheStorage) (name : string) : Cache :=
  default [] (alist_get cs name).
(** Writing a cache back under its name (creating it when new). *)
Fixpoint caches_update (cs : CacheStorage) (name : string) (c : Cache) : CacheStorage :=
  match cs with
  | [] => [(name, c)]
  | (n, c') :: cs' =>
      if decide (n = name) then (name, c) :: cs' else (n, c') :: caches_update cs' name c
  end.

(** A relative URL handed to the Cache API, resolved against the origin. *)
Definition resolve_url (origin path : string) : string := origin +:+ path.

Definition RESERVED := "/custom-model/".
Definition CACHE_PREFIX := "/custom-model-files/".
Definition ONNX := ".onnx".

(** The two tests on stored names shared by the responders. *)
Definition names_role (role k : string) : bool :=
  JS.includes (JS.toLowerCase k) role && JS.endsWith k ONNX.
Definition is_onnx (k : string) : bool := JS.endsWith k ONNX.

(** ** The service worker, [public/sw.js] *)
Module SW.

Definition CACHE_NAME := "custom-model-cache-v1".

(** Lines 39-72 of [serveCustomModel]: the value of [response] when
    line 74 tests it. *)
Definition lookup (origin : string) (cache : Cache)
    (relativePath filenameOnly : string) : option Response :=
  (* 1. Exact match *)
  let response := cache_match cache (resolve_url origin (CACHE_PREFIX +:+ relativePath)) in
  (* 2. Filename-only match *)
  let response :=
    match response with
    | Some _ => response
    | None => cache_match cache (resolve_url origin (CACHE_PREFIX +:+ filenameOnly))
    end in
  (* 3. Advanced fuzzy fallback for .onnx files *)
  match response with
  | Some _ => response
  | None =>
      if JS.endsWith filenameOnly ONNX then
        let keys := cache_keys cache in
        let isEncoder := JS.includes (JS.toLowerCase filenameOnly) "encoder" in
        let isDecoder := JS.includes (JS.toLowerCase filenameOnly) "decoder" in
        let response :=
          if isEncoder then
            match List.find (names_role "encoder") keys with
            | Some k => cache_match cache k
            | None => response
            end
          else if isDecoder || JS.includes (JS.toLowerCase filenameOnly) "merged" then
            match List.find (fun k => (JS.includes (JS.toLowerCase k) "decoder"
                                       || JS.includes (JS.toLowerCase k) "merged")
                                      && JS.endsWith k ONNX) keys with
            | Some k => cache_match cache k
            | None => response
            end
          else response in
        (* Fallback to any ONNX if only one exists *)
        match response with
        | Some _ => response
        | None =>
            match List.filter is_onnx keys with
            | [k] => cache_match cache k
            | _ => response
            end
        end
      else response
  end.

(** [serveCustomModel(pathname)], reading the caches of the origin. *)
Definition serveCustomModel (origin : string) (caches : CacheStorage)
    (pathname : string) : Response :=
  let cleanPathname := JS.split_head "?" pathname in
  let relativePath := JS.split_last RESERVED cleanPathname in
  let filenameOnly := JS.or_else (JS.split_last "/" relativePath) relativePath in
  let cache := caches_open caches CACHE_NAME in
  match lookup origin cache relativePath filenameOnly with
  | Some response =>
      mkResponse response.(status) response.(statusText)
        (headers_set response.(headers) "Access-Control-Allow-Origin" "*")
        response.(body)
  | None =>
      Response_text_init ("File kustom tidak ditemukan di cache: " +:+ filenameOnly)
        404 [("Content-Type", "text/plain")]
  end.

(** The [fetch] listener: [Some] response when the worker answers,
    [None] when the request goes on to the network. *)
Definition onfetch (origin : string) (caches : CacheStorage)
    (pathname : string) : option Response :=
  if JS.includes pathname RESERVED
  then Some (serveCustomModel origin caches pathname)
  else None.

End SW.

(** ** The [window.fetch] interceptor *)
Module Interceptor.

(** The first argument of a call: a [Request], a string, or another
    object, read through its [toString()] (a [URL]). *)
Inductive FetchArg :=
| ARequest (url : string)
| AString (s : string)
| AObject (toString : string).

Definition url_of (a : FetchArg) : string :=
  match a with
  | ARequest url => url
  | AString s => s
  | AObject s => s
  end.

Inductive Outcome :=
| Forwarded (args : list FetchArg)   (* [originalFetch.apply(window, args)] *)
| Responded (r : Response).

(** A [string | undefined] value is falsy when undefined or empty. *)
Definition truthy_name (o : option string) : option string :=
  match o with
  | Some k => if JS.truthy k then Some k else None
  | None => None
  end.

(** Lines 39-67: the value of [blob] when line 69 tests it. *)
Definition lookup (files : Files)
    (filenameWithPossiblyPath filenameOnly : string) : option Blob :=
  (* Try exact match first *)
  let blob :=
    match Map_get files filenameWithPossiblyPath with
    | Some b => Some b
    | None => Map_get files filenameOnly
    end in
  (* Fuzzy fallback for .onnx files *)
  match blob with
  | Some _ => blob
  | None =>
      if JS.endsWith filenameOnly ONNX then
        let filenames := Map_keys files in
        let isEncoder := JS.includes (JS.toLowerCase filenameOnly) "encoder" in
        let isDecoder := JS.includes (JS.toLowerCase filenameOnly) "decoder"
                         || JS.includes (JS.toLowerCase filenameOnly) "merged" in
        let blob :=
          if isEncoder then
            match truthy_name (List.find (names_role "encoder") filenames) with
            | Some k => Map_get files k
            | None => blob
            end
          else if isDecoder then
            (* First try exact decoder match, then try merged model *)
            let found := truthy_name (List.find (names_role "decoder") filenames) in
            let found :=
              match found with
              | Some _ => found
              | None => truthy_name (List.find (names_role "merged") filenames)
              end in
            match found with
            | Some k => Map_get files k
            | None => blob
            end
          else blob in
        (* If still no blob, just take any .onnx if there's only one *)
        match blob with
        | Some _ => blob
        | None =>
            match List.filter is_onnx filenames with
            | [k] => Map_get files k
            | _ => blob
            end
        end
      else blob
  end.

(** The replacement of [window.fetch]; [published] is the value of
    [window.__CUSTOM_MODEL_FILES__]. *)
Definition fetch (published : option Files) (args : list FetchArg) : Outcome :=
  match args with
  | [] => Forwarded args
  | a :: _ =>
      let url := url_of a in
      if JS.includes url RESERVED then
        let cleanUrl := JS.split_head "?" url in
        let filenameWithPossiblyPath := JS.split_last RESERVED cleanUrl in
        let filenameOnly := JS.or_else (JS.split_last "/" filenameWithPossiblyPath) "" in
        match published with
        | Some files =>
            if (0 <? Map_size files)%nat then
              match lookup files filenameWithPossiblyPath filenameOnly with
              | Some blob =>
                  Responded (Response_blob_init blob 200
                    [("Content-Type",
                      JS.or_else blob.(blob_type)
                        (if JS.endsWith filenameOnly ".json"
                         then "application/json" else "application/octet-stream"));
                     ("Access-Control-Allow-Origin", "*")])
              | None =>
                  (* Return 404 for missing files *)
                  Responded (Response_text_init ("File not found: " +:+ filenameOnly)
                    404 [("Content-Type", "text/plain")])
              end
            else Forwarded args
        | None => Forwarded args
        end
      else Forwarded args
  end.

End Interceptor.

(** ** The development server middleware, [vite.config.ts] *)
Module Vite.

(** What the middleware does with a request: it ends the reply with
    [res.writeHead(code, headers); res.end(payload)], or calls [next()]. *)
Inductive Handling :=
| Ended (code : nat) (reply_headers : list (string * string)) (payload : string)
| Next.

(** The middleware of [customModelNotFoundPlugin]; [req_url] is
    [req.url], which may be undefined. *)
Definition middleware (req_url : option string) : Handling :=
  let rawUrl := JS.or_else (default "" req_url) "" in
  let url := JS.split_head "?" rawUrl in
  if bool_decide (url = "/custom-model") || JS.startsWith url "/custom-model/" then
    Ended 404 [("Content-Type", "text/plain"); ("Cache-Control", "no-store")]
      ("404 Not Found: " +:+ url)
  else Next.

End Vite.

(** ** JavaScript values read out of parsed JSON documents *)
#[local] Set Warnings "-register-all".
Inductive JSValue :=
| JUndefined
| JNull
| JBool (b : bool)
| JNumber (nonzero : bool)     (* a number; only whether it is 0 or NaN is observed *)
| JString (s : string)
| JArray (items : list JSValue)
| JObject (props : list (string * JSValue)).

Module JSV.

(** Truthiness of a value. *)
Definition truthy (v : JSValue) : bool :=
  match v with
  | JUndefined | JNull => false
  | JBool b => b
  | JNumber nz => nz
  | JString s => JS.truthy s
  | JArray _ | JObject _ => true
  end.

(** [a || b] *)
Definition or_else (a b : JSValue) : JSValue := if truthy a then a else b.

(** [v.name] for a property name that is neither an index nor a
    built-in member: [None] is the TypeError raised on [null] and
    [undefined]. *)
Definition prop (v : JSValue) (name : string) : option JSValue :=
  match v with
  | JUndefined | JNull => None
  | JObject props => Some (default JUndefined (alist_get props name))
  | _ => Some JUndefined
  end.

(** [v?.[0]] *)
Definition first (v : JSValue) : JSValue :=
  match v with
  | JArray (x :: _) => x
  | JString (String c _) => JString (String c EmptyString)
  | JObject props => default JUndefined (alist_get props "0")
  | _ => JUndefined
  end.

Definition is_string (s : string) (v : JSValue) : bool :=
  match v with
  | JString s' => bool_decide (s' = s)
  | _ => false
  end.

(** [v.includes(s)]: the method of strings and of arrays; on any
    other value the call raises a TypeError ([None]). *)
Definition includes (v : JSValue) (s : string) : option bool :=
  match v with
  | JString s' => Some (JS.includes s' s)
  | JArray items => Some (existsb (is_string s) items)
  | _ => None
  end.

End JSV.

(** ** The application: configuration parsing, cache synchronisation
       and model loading *)
Module App.

Inductive ModelSource := remote | custom.

Global Instance ModelSource_eq_dec : EqDecision ModelSource.
Proof. solve_decision. Defined.

(** The state [modelConfig]. *)
Record ModelConfig := mkModelConfig {
  arch : JSValue;
  modelType : JSValue;
  tokenizer : JSValue;
  isEncoderDecoder : JSValue;
  requiredWeights : list string;
  hasGenerationConfig : bool;
  hasQuantizeConfig : bool
}.

(** [env] of the inference library, as far as the application sets it. *)
Record TEnv := mkTEnv {
  allowLocalModels : bool;
  allowRemoteModels : bool;
  localModelPath : string;
  remoteHost : string;
  remotePathTemplate : string
}.

(** The browser around the component. *)
Record Browser := mkBrowser {
  origin : string;                  (* window.location.origin *)
  published : option Files;         (* window.__CUSTOM_MODEL_FILES__ *)
  caches : CacheStorage;
  models_store : option Files;      (* IndexedDB record 'current_custom_model' *)
  sw_supported : bool;              (* 'serviceWorker' in navigator *)
  sw_ready : bool;                  (* navigator.serviceWorker.ready settles *)
  sw_controller : bool;             (* navigator.serviceWorker.controller *)
  env : TEnv;
  pipeline_calls : list (string * bool)   (* calls of pipeline('translation', id, {quantized}) *)
}.

Definition set_published (w : Browser) (f : option Files) : Browser :=
  mkBrowser w.(origin) f w.(caches) w.(models_store) w.(sw_supported)
    w.(sw_ready) w.(sw_controller) w.(env) w.(pipeline_calls).
Definition set_caches (w : Browser) (cs : CacheStorage) : Browser :=
  mkBrowser w.(origin) w.(published) cs w.(models_store) w.(sw_supported)
    w.(sw_ready) w.(sw_controller) w.(env) w.(pipeline_calls).
Definition set_models_store (w : Browser) (f : option Files) : Browser :=
  mkBrowser w.(origin) w.(published) w.(caches) f w.(sw_supported)
    w.(sw_ready) w.(sw_controller) w.(env) w.(pipeline_calls).
Definition set_env (w : Browser) (e : TEnv) : Browser :=
  mkBrowser w.(origin) w.(published) w.(caches) w.(models_store) w.(sw_supported)
    w.(sw_ready) w.(sw_controller) e w.(pipeline_calls).
Definition log_pipeline_call (w : Browser) (modelId : string) (quantized : bool) : Browser :=
  mkBrowser w.(origin) w.(published) w.(caches) w.(models_store) w.(sw_supported)
    w.(sw_ready) w.(sw_controller) w.(env) (w.(pipeline_calls) ++ [(modelId, quantized)]).

(** The component state read or written by the functions below; the
    progress display driven by the pipeline's callback is left out. *)
Record AppState := mkAppState {
  modelSource : ModelSource;
  remoteModelId : string;
  customModelFiles : Files;
  translatorRef : option nat;       (* translatorRef.current, a handle *)
  loadedModelId : option string;
  isModelLoading : bool;
  modelStatus : option string;
  errorMessage : option string;
  isOfflineMode : bool;
  modelConfig : option ModelConfig
}.

Definition set_translatorRef (s : AppState) (t : option nat) : AppState :=
  mkAppState s.(modelSource) s.(remoteModelId) s.(customModelFiles) t
    s.(loadedModelId) s.(isModelLoading) s.(modelStatus) s.(errorMessage)
    s.(isOfflineMode) s.(modelConfig).
Definition setLoadedModelId (s : AppState) (i : option string) : AppState :=
  mkAppState s.(modelSource) s.(remoteModelId) s.(customModelFiles) s.(translatorRef)
    i s.(isModelLoading) s.(modelStatus) s.(errorMessage)
    s.(isOfflineMode) s.(modelConfig).
Definition setIsModelLoading (s : AppState) (b : bool) : AppState :=
  mkAppState s.(modelSource) s.(remoteModelId) s.(customModelFiles) s.(translatorRef)
    s.(loadedModelId) b s.(modelStatus) s.(errorMessage)
    s.(isOfflineMode) s.(modelConfig).
Definition setModelStatus (s : AppState) (m : option string) : AppState :=
  mkAppState s.(modelSource) s.(remoteModelId) s.(customModelFiles) s.(translatorRef)
    s.(loadedModelId) s.(isModelLoading) m s.(errorMessage)
    s.(isOfflineMode) s.(modelConfig).
Definition setErrorMessage (s : AppState) (m : option string) : AppState :=
  mkAppState s.(modelSource) s.(remoteModelId) s.(customModelFiles) s.(translatorRef)
    s.(loadedModelId) s.(isModelLoading) s.(modelStatus) m
    s.(isOfflineMode) s.(modelConfig).
Definition setIsOfflineMode (s : AppState) (b : bool) : AppState :=
  mkAppState s.(modelSource) s.(remoteModelId) s.(customModelFiles) s.(translatorRef)
    s.(loadedModelId) s.(isModelLoading) s.(modelStatus) s.(errorMessage)
    b s.(modelConfig).
Definition setModelConfig (s : AppState) (c : option ModelConfig) : AppState :=
  mkAppState s.(modelSource) s.(remoteModelId) s.(customModelFiles) s.(translatorRef)
    s.(loadedModelId) s.(isModelLoading) s.(modelStatus) s.(errorMessage)
    s.(isOfflineMode) c.
Definition setCustomModelFiles (s : AppState) (f : Files) : AppState :=
  mkAppState s.(modelSource) s.(remoteModelId) f s.(translatorRef)
    s.(loadedModelId) s.(isModelLoading) s.(modelStatus) s.(errorMessage)
    s.(isOfflineMode) s.(modelConfig).

(** *** Parsing the configuration files (the effect on
        [customModelFiles, modelSource]) *)
Section parse.
(** [JSON.parse]: [None] is the SyntaxError. *)
Variable JSON_parse : string -> option JSValue.

(** The tokenizer description: ["Standard"] unless a tokenizer
    document is stored and read without an exception. *)
Definition tokenizerInfo (files : Files) : JSValue :=
  let tokenizerConfigBlob :=
    match Map_get files "tokenizer_config.json" with
    | Some b => Some b
    | None => Map_get files "tokenizer.json"
    end in
  match tokenizerConfigBlob with
  | Some b =>
      match JSON_parse (blob_text b) with
      | Some tData =>
          match JSV.prop tData "tokenizer_class", JSV.prop tData "model_type" with
          | Some tc, Some mt => JSV.or_else (JSV.or_else tc mt) (JString "Custom")
          | _, _ => JString "Standard"
          end
      | None => JString "Standard"
      end
  | None => JString "Standard"
  end.

(** The [try] block of [parseConfigs]: the record given to
    [setModelConfig], [None] when an exception reaches the [catch]. *)
Definition parseConfigs_try (files : Files) (configBlob : Blob) : option ModelConfig :=
  config ← JSON_parse (blob_text configBlob);
  let tokenizerInfo := tokenizerInfo files in
  architectures ← JSV.prop config "architectures";
  let arch := JSV.or_else (JSV.first architectures) (JString "Unknown") in
  model_type ← JSV.prop config "model_type";
  let modelType := JSV.or_else model_type (JString "Unknown") in
  c1 ← JSV.includes arch "ConditionalGeneration";
  c2 ← JSV.includes arch "MTModel";
  c3 ← JSV.includes arch "MarianMT";
  flag ← JSV.prop config "is_encoder_decoder";
  let isEncDec := if c1 || c2 || c3 then JBool true else flag in
  let weights :=
    if JSV.truthy isEncDec
    then ["encoder_model.onnx"; "decoder_model_merged.onnx"]
    else ["model.onnx"] in
  Some (mkModelConfig arch modelType tokenizerInfo isEncDec weights
          (bool_decide (is_Some (Map_get files "generation_config.json")))
          (bool_decide (is_Some (Map_get files "quantize_config.json")))).

(** The effect: the value of [modelConfig] once it has run, from
    its value before. *)
Definition parseConfigs (modelSource : ModelSource) (customModelFiles : Files)
    (modelConfig : option ModelConfig) : option ModelConfig :=
  if bool_decide (modelSource ≠ custom) || bool_decide (Map_size customModelFiles = 0) then
    None                                   (* setModelConfig(null); return *)
  else
    match Map_get customModelFiles "config.json" with
    | None => modelConfig                  (* if (!configBlob) return; *)
    | Some configBlob =>
        match parseConfigs_try customModelFiles configBlob with
        | Some c => Some c
        | None => modelConfig              (* catch: console.error *)
        end
    end.
End parse.

(** *** Synchronising the files to the Cache API and to IndexedDB (the
        effect on [customModelFiles]) *)

(** [saveFiles]: every file is put in the shared cache. *)
Definition saveFiles (origin : string) (files : Files) (cs : CacheStorage) : CacheStorage :=
  let cache := caches_open cs "custom-model-cache-v1" in
  let cache :=
    foldl (fun c nb => cache_put c (resolve_url origin (CACHE_PREFIX +:+ nb.1))
                         (Response_of_blob nb.2)) cache files in
  caches_update cs "custom-model-cache-v1" cache.

Definition syncFiles (customModelFiles : Files) (w : Browser) : Browser :=
  let w := set_published w (Some customModelFiles) in
  if (0 <? Map_size customModelFiles)%nat then
    let w := set_caches w (saveFiles w.(origin) customModelFiles w.(caches)) in
    set_models_store w (Some customModelFiles)
  else w.

(** The upload handler and the user's choice of files: the state
    holds the new map, then the two effects run. *)
Definition replaceFiles (JSON_parse : string -> option JSValue)
    (newMap : Files) (s : AppState) (w : Browser) : AppState * Browser :=
  let s := setCustomModelFiles s newMap in
  let s := setModelConfig s (parseConfigs JSON_parse s.(modelSource) newMap s.(modelConfig)) in
  (s, syncFiles newMap w).

(** *** Loading the model *)

(** The purge of the inference library's caches in
    [loadOfflineModel]: in every cache whose name includes
    'transformers', the entries whose URL includes the reserved
    segment are deleted. *)
Definition purge_cache (txCache : Cache) : Cache :=
  foldl (fun c key => if JS.includes key RESERVED then cache_delete c key else c)
    txCache (cache_keys txCache).

Definition purgeTransformersCache (cs : CacheStorage) : CacheStorage :=
  let cacheNames := caches_keys cs in
  let txCaches := List.filter (fun n => JS.includes n "transformers") cacheNames in
  foldl (fun cs cacheName => caches_update cs cacheName (purge_cache (caches_open cs cacheName)))
    cs txCaches.

(** "Save to Cache API for Service Worker access" in [loadOfflineModel]. *)
Definition cacheFiles (origin : string) (filesToUse : Files) (cs : CacheStorage) : CacheStorage :=
  let cache := caches_open cs "custom-model-cache-v1" in
  let cache :=
    foldl (fun c nb =>
             cache_put c (resolve_url origin (CACHE_PREFIX +:+ nb.1))
               (Response_blob_init nb.2 200
                  [("Content-Type", JS.or_else nb.2.(blob_type) "application/octet-stream")]))
      cache filesToUse in
  caches_update cs "custom-model-cache-v1" cache.

(** How a call of the asynchronous function ends. *)
Inductive Outcome :=
| Returned (b : bool)
| Threw (message : string)
| Pending.                         (* an awaited promise never settles *)

(** What [await pipeline(...)] gives. *)
Inductive PipelineResult :=
| Built (translator : nat)
| Nullish
| Failed (message : option string).

Definition isQuantizedName (k : string) : bool :=
  JS.includes (JS.toLowerCase k) "quant"
  || JS.includes (JS.toLowerCase k) "uint8"
  || JS.includes (JS.toLowerCase k) "int8".

Definition includes_opt (m : option string) (sub : string) : bool :=
  match m with
  | Some s => JS.includes s sub
  | None => false
  end.

Section load.
(** The inference library: the result of building the pipeline for
    a model id and a quantisation flag in a given browser state. *)
Variable pipeline : string -> bool -> Browser -> PipelineResult.

(** The [catch] block after the pipeline. *)
Definition loadFailed (message : option string) (s : AppState) (w : Browser)
    : Outcome * AppState * Browser :=
  let errorMsg := JS.or_else (default "" message) "Model gagal dimuat." in
  let errorMsg :=
    match s.(modelSource) with
    | custom =>
        if includes_opt message "JSON" then
          "Gagal membaca konfigurasi model (JSON error). Pastikan file config.json dan tokenizer.json benar."
        else if includes_opt message "ONNX" then
          "Gagal memuat file ONNX. Pastikan file model .onnx benar dan kompatibel dengan Transformers.js."
        else "Gagal memuat model custom: " +:+ default "undefined" message
    | remote => errorMsg
    end in
  let s := setErrorMessage s (Some errorMsg) in
  let s := setIsOfflineMode s false in
  let s := setIsModelLoading s false in
  let s := setModelStatus s None in
  (Returned false, s, w).

(** From [setModelStatus] before the [try] to the end. *)
Definition runPipeline (modelId : string) (filesToUse : Files)
    (s : AppState) (w : Browser) : Outcome * AppState * Browser :=
  let s := setModelStatus s (Some
    match s.(modelSource) with
    | remote => "Mengunduh model terjemahan..."
    | custom => "Memuat model lokal (Upload)..."
    end) in
  let isQuantized :=
    match s.(modelSource) with
    | custom => existsb isQuantizedName (Map_keys filesToUse)
    | remote => true
    end in
  let result := pipeline modelId isQuantized w in
  let w := log_pipeline_call w modelId isQuantized in
  match result with
  | Built translator =>
      let s := set_translatorRef s (Some translator) in
      let s := setLoadedModelId s (Some modelId) in
      let s := setModelStatus s (Some "Model siap digunakan.") in
      let s := setIsModelLoading s false in
      (Returned true, s, w)
  | Nullish => loadFailed (Some "Pipeline returned null atau undefined") s w
  | Failed message => loadFailed message s w
  end.

Definition loadOfflineModel (overrideFiles : option Files)
    (s : AppState) (w : Browser) : Outcome * AppState * Browser :=
  let filesToUse := default s.(customModelFiles) overrideFiles in
  let targetModelId :=
    match s.(modelSource) with
    | remote => s.(remoteModelId)
    | custom => "custom-model"
    end in
  (* Only skip if already loaded same model *)
  if bool_decide (is_Some s.(translatorRef))
     && bool_decide (s.(loadedModelId) = Some targetModelId)
     && negb (bool_decide (is_Some overrideFiles))
  then (Returned true, s, w)
  else if s.(isModelLoading) then (Returned false, s, w)
  else
    let s := if bool_decide (s.(loadedModelId) ≠ Some targetModelId)
             then set_translatorRef s None else s in
    let s := setIsModelLoading s true in
    let s := setErrorMessage s None in
    match s.(modelSource) with
    | remote =>
        let w := set_env w (mkTEnv false true "" "https://huggingface.co"
                              "{model}/resolve/{revision}/") in
        runPipeline s.(remoteModelId) filesToUse s w
    | custom =>
        if negb w.(sw_supported) then
          (Threw "Browser tidak mendukung Service Worker. Gunakan Chrome/Edge modern.", s, w)
        else
          let s := setModelStatus s (Some "Menunggu Service Worker aktif...") in
          (* Wait for SW to be controlling the page *)
          if negb w.(sw_ready) then (Pending, s, w)
          else if negb w.(sw_controller) then
            let s := setIsModelLoading s false in
            let s := setModelStatus s None in
            let s := setErrorMessage s (Some
              "Service Worker belum siap mengontrol halaman. Silakan refresh halaman (Ctrl+R) dan coba lagi.") in
            (Returned false, s, w)
          else
            let w := set_published w (Some filesToUse) in
            let w := set_caches w (purgeTransformersCache w.(caches)) in
            let w := set_caches w (cacheFiles w.(origin) filesToUse w.(caches)) in
            let w := set_env w (mkTEnv true false (w.(origin) +:+ "/") "" "") in
            runPipeline "custom-model" filesToUse s w
    end.
End load.

End App.

(** * The application beyond the model loader *)

(** ** The RESET button and the restoration at startup *)
Module Storage.


Definition digit (c : ascii) : option N :=
  let n := N_of_ascii c in
  if (48 <=? n)%N && (n <=? 57)%N then Some (n - 48)%N else None.

Fixpoint digits (s : string) (acc : N) : option N :=
  match s with
  | EmptyString => Some acc
  | String c s' =>
      match digit c with
      | Some d => digits s' (10 * acc + d)%N
      | None => None
      end
  end.

(** A property name that is an array index: the canonical decimal
    text of an integer below 2^32 - 1. *)
Definition array_index (name : string) : option N :=
  match name with
  | EmptyString => None
  | String c rest =>
      if bool_decide (c = "0"%char) && negb (bool_decide (rest = "")) then None
      else match digits name 0 with
           | Some n => if (n <? 4294967295)%N then Some n else None
           | None => None
           end
  end.

(** [data[name] = blob] on a plain object: the own properties in the
    order of their creation; assigning to '__proto__' sets the
    prototype and creates no property. *)
Definition object_assign (o : Files) (name : string) (blob : Blob) : Files :=
  if decide (name = "__proto__") then o else Map_set o name blob.

(** The object [data] that the effect writes under
    'current_custom_model', from the map it is written from. *)
Definition stored_object (files : Files) : Files :=
  foldl (fun o nb => object_assign o nb.1 nb.2) [] files.

Definition index_le (a b : N * (string * Blob)) : Prop := (a.1 <= b.1)%N.

Global Instance index_le_dec a b : Decision (index_le a b).
Proof. unfold index_le. apply _. Defined.

Definition indexed (e : string * Blob) : option (N * (string * Blob)) :=
  (fun i => (i, e)) <$> array_index e.1.

(** [Object.entries(o)]: the array indices in ascending order, then the
    other names in the order of their creation. *)
Definition Object_entries (o : Files) : Files :=
  (snd <$> merge_sort index_le (omap indexed o))
  ++ List.filter (fun e => negb (bool_decide (is_Some (array_index e.1)))) o.

(** The restoration at startup ([initDB]): when a record is stored, the
    map given to [setCustomModelFiles]. *)
Definition restoreFiles (record : option Files) : option Files :=
  match record with
  | Some data =>
      Some (foldl (fun fileMap nb => Map_set fileMap nb.1 nb.2) []
              (Object_entries (stored_object data)))
  | None => None
  end.

End Storage.

(** ** Sentence splitting *)

(** [splitIntoSentences] counts lengths and tests white space on UTF-16
    code units; its strings are lists of code units here. *)
Module Sentences.

Definition Str := list N.

(** The class [\s] of a regular expression without the [u] flag, which
    is also what [trim] removes: WhiteSpace and LineTerminator. *)
Definition is_space (c : N) : bool :=
  ((c =? 9) || (c =? 10) || (c =? 11) || (c =? 12) || (c =? 13) || (c =? 32)
   || (c =? 160) || (c =? 5760) || ((8192 <=? c) && (c <=? 8202))
   || (c =? 8232) || (c =? 8233) || (c =? 8239) || (c =? 8287)
   || (c =? 12288) || (c =? 65279))%N.

(** The class [[.?!]] of the look-behind. *)
Definition is_terminator (c : N) : bool :=
  ((c =? 46) || (c =? 63) || (c =? 33))%N.

Definition after_terminator (prev : option N) : bool :=
  match prev with
  | Some c => is_terminator c
  | None => false
  end.

Definition cons_head (c : N) (ps : list Str) : list Str :=
  match ps with
  | p :: ps' => (c :: p) :: ps'
  | [] => [[c]]
  end.

(** [s.split(/(?<=[.?!])\s+/)] from a position of the text: [prev] is
    the code unit before the position, [in_sep] tells that the position
    is inside a separator that has begun (the [\s+] is greedy).  A
    separator begins at a white space that follows a terminator. *)
Fixpoint pieces (in_sep : bool) (prev : option N) (s : Str) : list Str :=
  match s with
  | [] => [[]]
  | c :: s' =>
      if in_sep && is_space c then pieces true (Some c) s'
      else if is_space c && after_terminator prev then [] :: pieces true (Some c) s'
      else cons_head c (pieces false (Some c) s')
  end.

Definition split (text : Str) : list Str := pieces false None text.

Fixpoint trimStart (s : Str) : Str :=
  match s with
  | c :: s' => if is_space c then trimStart s' else s
  | [] => []
  end.

Definition trimEnd (s : Str) : Str := rev (trimStart (rev s)).

Definition trim (s : Str) : Str := trimEnd (trimStart s).

Definition splitIntoSentences (text : Str) : list Str :=
  List.filter (fun s => 5 <? length s) (map trim (split text)).

(** No white space of [s] follows a terminator, [prev] being the code
    unit before [s]. *)
Fixpoint no_boundary (prev : option N) (s : Str) : bool :=
  match s with
  | [] => true
  | c :: s' => negb (is_space c && after_terminator prev) && no_boundary (Some c) s'
  end.

(** "Hello world. How are you?  Fine." *)
Definition sample_text : Str :=
  [72; 101; 108; 108; 111; 32; 119; 111; 114; 108; 100; 46; 32;
   72; 111; 119; 32; 97; 114; 101; 32; 121; 111; 117; 63; 32; 32;
   70; 105; 110; 101; 46]%N.

End Sentences.

(** ** The translation history *)
Module History.

Inductive Status := pending | translating | completed | error.

Record TextPair := mkTextPair {
  original : list N;     (* UTF-16 code units, as [splitIntoSentences] reads them *)
  translated : list N;
  status : Status;
  page : option nat;
  eta : option nat
}.

Record HistoryEntry := mkHistoryEntry {
  fileName : string;
  textPairs : list TextPair;
  date : string;
  progress : Z           (* the integer [Math.round] gave *)
}.

Definition named (name : string) (h : HistoryEntry) : bool :=
  bool_decide (h.(fileName) = name).

(** [saveCurrentToHistory(pairs, name, prog)] as the update of
    [translationHistory]; [now] is [new Date().toLocaleString()]. *)
Definition saveCurrentToHistory (now : string) (pairs : list TextPair) (name : string)
    (prog : Z) (prev : list HistoryEntry) : list HistoryEntry :=
  if negb (JS.truthy name) then prev
  else
    let filtered := List.filter (fun h => negb (named name h)) prev in
    take 50 (mkHistoryEntry name pairs now prog :: filtered).

(** [new Map(items.map(item => [item.fileName, item]))]: a key keeps
    the place of its first entry and the value of its last. *)
Fixpoint map_set (m : list (string * HistoryEntry)) (k : string) (h : HistoryEntry)
    : list (string * HistoryEntry) :=
  match m with
  | [] => [(k, h)]
  | (k', h') :: m' =>
      if decide (k' = k) then (k, h) :: m' else (k', h') :: map_set m' k h
  end.

Definition map_of (items : list HistoryEntry) : list (string * HistoryEntry) :=
  foldl (fun m h => map_set m h.(fileName) h) [] items.

(** The update of [translationHistory] in [importHistory], for an
    imported array of history entries. *)
Definition importHistory (imported prev : list HistoryEntry) : list HistoryEntry :=
  let merged := imported ++ prev in
  let unique := map snd (map_of merged) in
  take 50 unique.

(** "Check history first" in [handleFileChange]:
    [translationHistory.find(h => h.fileName === file.name)]. *)
Definition existing (name : string) (history : list HistoryEntry) : option HistoryEntry :=
  List.find (named name) history.

(** The last entry of a list that bears a name. *)
Definition last_named (name : string) (items : list HistoryEntry) : option HistoryEntry :=
  List.find (named name) (rev items).

(** The debug log: [[msg, ...prev].slice(0, 50)]. *)
Definition addDebugLog (msg : string) (prev : list string) : list string :=
  take 50 (msg :: prev).

End History.

(** ** From a file to its text pairs *)

(** The [try] block of [handleFileChange] for a file that is not in the
    history, up to [setTextPairs(initialPairs)], and the loop of
    [extractSentencesFromPDF].  A PDF is given by what pdf.js reads
    from it: for every page the strings of its text items. *)
Module Extract.
Import Sentences.

Inductive FileContent :=
  | PDF (pages : list (list Str))
  | PlainText (fullText : Str).

(** [items.join(' ')] *)
Fixpoint join (sep : Str) (items : list Str) : Str :=
  match items with
  | [] => []
  | [x] => x
  | x :: rest => x ++ sep ++ join sep rest
  end.

Definition pageText (items : list Str) : Str := join [32%N] items.

Definition pdfPair (pageNum : nat) (s : Str) : History.TextPair :=
  History.mkTextPair s [] History.pending (Some pageNum) None.

Definition textPair (s : Str) : History.TextPair :=
  History.mkTextPair s [] History.pending None None.

(** The pairs of the pages from index [i] on; the page of index [i]
    has [pageNum] [i + 1]. *)
Fixpoint pairs_from (i : nat) (pages : list (list Str)) : list History.TextPair :=
  match pages with
  | [] => []
  | items :: rest =>
      map (pdfPair (i + 1)) (splitIntoSentences (pageText items)) ++ pairs_from (S i) rest
  end.

Definition extractSentencesFromPDF (pages : list (list Str)) : list History.TextPair :=
  pairs_from 0 pages.

Definition EMPTY_FILE : string := "File kosong atau tidak bisa dibaca.".
Definition NO_TEXT : string := "Tidak ada teks yang ditemukan dalam file.".

(** What the block leaves: the pairs handed to [setTextPairs], or the
    message of the error it throws, which the [catch] hands to
    [setErrorMessage]. *)
Inductive Processed :=
  | Shown (initialPairs : list History.TextPair)
  | Failed (message : string).

Definition initialPairs (f : FileContent) : Processed :=
  let extracted :=
    match f with
    | PDF pages => inr (extractSentencesFromPDF pages)
    | PlainText fullText =>
        if (length fullText =? 0) || (length (trim fullText) =? 0)
        then inl EMPTY_FILE
        else inr (map textPair (splitIntoSentences fullText))
    end in
  match extracted with
  | inl message => Failed message
  | inr pairs => if length pairs =? 0 then Failed NO_TEXT else Shown pairs
  end.

Definition pageOf (p : History.TextPair) : nat := default 0 p.(History.page).

End Extract.

(** * Vocabulary of the statements *)

(** The logical name a responder reads out of a URL or path (the text
    after the last reserved segment, without the query), and the last
    path segment of a name. *)
Definition requested (url : string) : string :=
  JS.split_last RESERVED (JS.split_head "?" url).

Definition basename (name : string) : string := JS.split_last "/" name.

(** The key of a stored file in the shared cache. *)
Definition file_url (origin name : string) : string :=
  resolve_url origin (CACHE_PREFIX +:+ name).

(** The loop of [saveFiles] and of the save in [loadOfflineModel]: every
    file is put under its key, with the response [mk] builds. *)
Definition put_all (origin : string) (mk : Blob -> Response) (files : Files) (c : Cache)
    : Cache :=
  foldl (fun c nb => cache_put c (file_url origin nb.1) (mk nb.2)) c files.

(** What the interceptor answers on a hit. *)
Definition interceptor_hit (filenameOnly : string) (blob : Blob) : Interceptor.Outcome :=
  Interceptor.Responded (Response_blob_init blob 200
    [("Content-Type",
      JS.or_else blob.(blob_type)
        (if JS.endsWith filenameOnly ".json"
         then "application/json" else "application/octet-stream"));
     ("Access-Control-Allow-Origin", "*")]).






(** The entries of a bag in the shared cache. *)
Definition in_bag (origin : string) (files : Files) (e : string * Response) : bool :=
  bool_decide (e.1 ∈ map (file_url origin) (Map_keys files)).

Definition bag_entries (origin : string) (mk : Blob -> Response) (files : Files) : Cache :=
  map (fun nb => (file_url origin nb.1, mk nb.2)) files.

(** The model id a load aims at. *)
Definition targetModelId (s : App.AppState) : string :=
  match s.(App.modelSource) with
  | App.remote => s.(App.remoteModelId)
  | App.custom => "custom-model"
  end.


(** Every entry of a history map sits under its file name. *)
Definition keyed (m : list (string * History.HistoryEntry)) : Prop :=
  forall k h, In (k, h) m -> h.(History.fileName) = k.

(** A contiguous part of a text. *)
Definition part_of (p s : Sentences.Str) : Prop := exists l1 l2, s = l1 ++ p ++ l2.

(** ** Sample inputs *)

Definition blobA := mkBlob "AAAA" "".
Definition blobB := mkBlob "BBBB" "".
Definition blobJ := mkBlob "{}" "application/json".

(** The URL the inference library builds for a file of the custom
    model: [localModelPath + modelId + '/' + file]. *)
Definition model_url (file : string) : string :=
  "http://localhost:3000/custom-model/" +:+ file.

Definition sample_caches : CacheStorage :=
  [ ("transformers-cache",
      [ ("http://localhost:3000/custom-model/config.json",
          Response_text_init "<!doctype html>" 200 [("Content-Type", "text/html")]);
        ("https://huggingface.co/Xenova/opus-mt-en-id/resolve/main/config.json",
          Response_of_blob (mkBlob "{}" "application/json")) ]);
    ("custom-model-cache-v1",
      [ ("http://localhost:3000/custom-model-files/config.json",
          Response_of_blob (mkBlob "{}" "application/json")) ]) ].

Definition idle_custom_state : App.AppState :=
  App.mkAppState App.custom "Xenova/opus-mt-en-id"
    [("config.json", blobJ); ("model.onnx", blobA)]
    None None false None None true None.

Definition fresh_state : App.AppState :=
  App.mkAppState App.custom "Xenova/opus-mt-en-id" [] None None false None None true None.


Definition controlled_browser : App.Browser :=
  App.mkBrowser "http://localhost:3000" None [] None true true true
    (App.mkTEnv true true "" "" "") [].

Definition marian_files : Files :=
  [ ("config.json", blobJ); ("encoder_model.onnx", blobA);
    ("decoder_model_merged.onnx", blobB) ].



Definition merged_then_decoder_files : Files :=
  [ ("config.json", blobJ); ("encoder_model.onnx", blobJ);
    ("merged_model.onnx", blobA); ("decoder_model.onnx", blobB) ].


Definition dquote : string := String (ascii_of_nat 34) EmptyString.

(** The text [{"architectures":["MarianMTModel"]}]. *)
Definition marian_config_text : string :=
  "{" +:+ dquote +:+ "architectures" +:+ dquote +:+ ":["
      +:+ dquote +:+ "MarianMTModel" +:+ dquote +:+ "]}".

(** [JSON.parse] on the documents of the examples; any other text used
    below is not JSON. *)
Definition sample_parse (text : string) : option JSValue :=
  if decide (text = "{}") then Some (JObject [])
  else if decide (text = "null") then Some JNull
  else if decide (text = marian_config_text)
  then Some (JObject [("architectures", JArray [JString "MarianMTModel"])])
  else None.

Definition html_blob : Blob := mkBlob "<!doctype html><html></html>" "text/html".
Definition marian_blob : Blob := mkBlob marian_config_text "application/json".

Definition marian_upload : Files :=
  [ ("config.json", marian_blob); ("tokenizer.json", blobJ);
    ("encoder_model.onnx", blobA); ("decoder_model_merged.onnx", blobB) ].

Definition marian_manifest : App.ModelConfig :=
  App.mkModelConfig (JString "MarianMTModel") (JString "Unknown") (JString "Custom")
    (JBool true) ["encoder_model.onnx"; "decoder_model_merged.onnx"] false false.

(** * Properties *)

(** ** Checks of the embedding on concrete inputs *)

Example split_last_url :
  JS.split_last "/custom-model/" "http://h/custom-model/onnx/a.onnx" = "onnx/a.onnx".
Proof. reflexivity. Qed.

Example split_last_overlap :
  JS.split_last "/custom-model/" "/custom-model/custom-model/x" = "custom-model/x".
Proof. reflexivity. Qed.

Example split_last_none : JS.split_last "/" "abc" = "abc".
Proof. reflexivity. Qed.

Example split_last_trailing : JS.split_last "/" "abc/" = "".
Proof. reflexivity. Qed.

Example split_head_query : JS.split_head "?" "config.json?v=3" = "config.json".
Proof. reflexivity. Qed.

Example lower_ex : JS.toLowerCase "Encoder_Model.ONNX" = "encoder_model.onnx".
Proof. reflexivity. Qed.

Example ends_ex : JS.endsWith "a/.onnx" ".onnx" = true /\ JS.endsWith "onnx" ".onnx" = false.
Proof. split; reflexivity. Qed.

Example incl_ex : JS.includes "my_decoder.onnx" "decoder" = true /\ JS.includes "x" "" = true.
Proof. split; reflexivity. Qed.

(** Scenario C: only a merged file is stored. *)
Example scenario_C :
  Interceptor.fetch (Some [("model_merged.onnx", blobA)])
    [Interceptor.AString "http://localhost:3000/custom-model/some/path/decoder_model.onnx"]
  = Interceptor.Responded (Response_blob_init blobA 200
      [("Content-Type", "application/octet-stream"); ("Access-Control-Allow-Origin", "*")]).
Proof. vm_compute. reflexivity. Qed.

(** Scenario D: the query suffix is stripped. *)
Example scenario_D :
  Interceptor.fetch (Some [("config.json", blobJ)])
    [Interceptor.AString "http://localhost:3000/custom-model/config.json?v=3"]
  = Interceptor.Responded (Response_blob_init blobJ 200
      [("Content-Type", "application/json"); ("Access-Control-Allow-Origin", "*")]).
Proof. vm_compute. reflexivity. Qed.

(** ** Strings *)
Section string_facts.

Lemma substring_all (s : string) : String.substring 0 (String.length s) s = s.
Proof. induction s as [|c s IH]; simpl; [done | by rewrite IH]. Qed.

Lemma eqb_spec (s t : string) : String.eqb s t = bool_decide (s = t).
Proof.
    destruct (String.eqb_spec s t); symmetry;
      [by apply bool_decide_eq_true | by apply bool_decide_eq_false].
Qed.

Lemma truthy_cons c s : JS.truthy (String c s) = true.
Proof. reflexivity. Qed.


Lemma or_else_empty a : JS.or_else a "" = a.
Proof. unfold JS.or_else. destruct a; reflexivity. Qed.

  (** One step of the scan for the separator "/". *)
Lemma after_last_slash_cons c s :
    JS.after_last_sep "/" (String c s) 0 =
      if decide (c = "/"%char)
      then Some (default s (JS.after_last_sep "/" s 0))
      else JS.after_last_sep "/" s 0.
Proof.
    cbn [JS.after_last_sep JS.startsWith String.prefix String.length Nat.sub].
    destruct (ascii_dec "/" c) as [<-|Hne].
    - rewrite decide_True by done.
      replace (String.prefix "" s) with true by (by destruct s).
      cbn [String.substring]. rewrite Nat.sub_0_r, substring_all.
      by destruct (JS.after_last_sep "/" s 0).
    - by rewrite decide_False by congruence.
Qed.

Lemma endsWith_cons c s suf :
    JS.endsWith (String c s) suf = bool_decide (String c s = suf) || JS.endsWith s suf.
Proof.
    cbn [JS.endsWith]. rewrite eqb_spec. by case_bool_decide.
Qed.

Lemma endsWith_onnx_truthy s : JS.endsWith s ONNX = true -> JS.truthy s = true.
Proof. by destruct s. Qed.

  (** A name that ends in ".onnx" has a last path segment that does. *)
Lemma endsWith_onnx_after_slash s r :
    JS.after_last_sep "/" s 0 = Some r ->
    JS.endsWith s ONNX = true -> JS.endsWith r ONNX = true.
Proof.
    revert r. induction s as [|c s IH]; intros r; [done|].
    rewrite after_last_slash_cons, endsWith_cons.
    case_decide as Hc.
    - subst c. intros [= <-]. rewrite bool_decide_eq_false_2 by done. simpl.
      destruct (JS.after_last_sep "/" s 0) as [r'|]; simpl; eauto.
    - intros Hr. case_bool_decide as Hs; simpl; [|by eauto].
      injection Hs as -> ->. by vm_compute in Hr.
Qed.

Lemma endsWith_onnx_basename s :
    JS.endsWith s ONNX = true -> JS.endsWith (JS.split_last "/" s) ONNX = true.
Proof.
    unfold JS.split_last. destruct (JS.after_last_sep "/" s 0) eqn:E; simpl;
      eauto using endsWith_onnx_after_slash.
Qed.

Lemma resolve_url_inj origin p q :
    resolve_url origin (CACHE_PREFIX +:+ p) = resolve_url origin (CACHE_PREFIX +:+ q) -> p = q.
Proof. unfold resolve_url. intros H. by do 2 apply (inj (String.app _)) in H. Qed.

End string_facts.

(** ** Association lists *)
Section alist_facts.
Context {V : Type}.
Implicit Types (l : list (string * V)) (k : string) (v : V).



Lemma alist_get_Some_In l k v : alist_get l k = Some v -> In (k, v) l.
Proof.
  induction l as [|[k' v'] l IH]; simpl; [done|].
  case_decide; [intros [= ->]; subst; by left | by right; apply IH].
Qed.

Lemma alist_get_Some_key l k v : alist_get l k = Some v -> In k (alist_keys l).
Proof. intros H%alist_get_Some_In. by apply (in_map fst) in H. Qed.

Lemma alist_get_key l k : In k (alist_keys l) -> is_Some (alist_get l k).
Proof.
  induction l as [|[k' v'] l IH]; simpl; [done|].
  intros [->|Hin]; case_decide; eauto; congruence.
Qed.

Lemma alist_get_not_key l k : ~ In k (alist_keys l) -> alist_get l k = None.
Proof.
  intros Hk. destruct (alist_get l k) eqn:E; [|done].
  by apply alist_get_Some_key in E.
Qed.

Lemma alist_keys_remove l k :
  alist_keys (alist_remove l k) = List.filter (fun k' => negb (bool_decide (k' = k))) (alist_keys l).
Proof.
  unfold alist_remove, alist_keys. induction l as [|[k' v'] l IH]; simpl; [done|].
  destruct (negb _); simpl; by rewrite IH.
Qed.
End alist_facts.



(** ** The Cache API *)
Section cache_facts.


Lemma caches_open_update cs name c name' :
  caches_open (caches_update cs name c) name' =
    if decide (name = name') then c else caches_open cs name'.
Proof.
  unfold caches_open. induction cs as [|[n c'] cs IH]; simpl.
  - by case_decide.
  - destruct (decide (n = name)) as [->|Hn]; simpl.
    + by case_decide.
    + destruct (decide (n = name')) as [->|Hn'].
      * by rewrite decide_False by congruence.
      * done.
Qed.





End cache_facts.

(** ** The purge of the inference library's caches *)
Section purge.



End purge.

(** ** The name read out of the URL the inference library builds *)
Section requested_facts.

Lemma includes_cons c s sub :
  JS.includes (String c s) sub = JS.startsWith (String c s) sub || JS.includes s sub.
Proof. cbn [JS.includes]. by destruct (JS.startsWith _ _). Qed.

Lemma split_head_absent sep s : JS.includes s sep = false -> JS.split_head sep s = s.
Proof.
  induction s as [|c s IH].
  - intros _. cbn [JS.split_head]. by destruct (JS.startsWith "" sep).
  - rewrite includes_cons. intros [Hst Hs]%orb_false_elim.
    cbn [JS.split_head]. by rewrite Hst, IH.
Qed.

Lemma after_last_sep_absent sep s :
  JS.includes s sep = false -> JS.after_last_sep sep s 0 = None.
Proof.
  induction s as [|c s IH]; [done|].
  rewrite includes_cons. intros [Hst Hs]%orb_false_elim.
  cbn [JS.after_last_sep]. by rewrite Hst, IH.
Qed.

(** For a file name without '?' and without the reserved segment, the
    responders read the name back out of the URL of the request. *)
Lemma requested_model_url name :
  JS.includes name "?" = false ->
  JS.includes name RESERVED = false ->
  requested (model_url name) = name /\ JS.includes (model_url name) RESERVED = true.
Proof.
  intros Hq Hres. unfold requested, model_url. cbv [String.append]. cbn.
  assert (forall s, String.prefix "" s = true) as Hempty by (by intros []).
  rewrite !Hempty, (split_head_absent "?" name Hq), (after_last_sep_absent _ _ Hres).
  cbn. by rewrite Nat.sub_0_r, substring_all.
Qed.

End requested_facts.

(** * The claims *)


Example purge_sample :
  App.purgeTransformersCache sample_caches =
  [ ("transformers-cache",
      [ ("https://huggingface.co/Xenova/opus-mt-en-id/resolve/main/config.json",
          Response_of_blob (mkBlob "{}" "application/json")) ]);
    ("custom-model-cache-v1",
      [ ("http://localhost:3000/custom-model-files/config.json",
          Response_of_blob (mkBlob "{}" "application/json")) ]) ].
Proof. vm_compute. reflexivity. Qed.

(** ** Loading while the service worker does not control the page *)



(** ** The fetch interceptor answers only from a non-empty published map *)

(** C10: whenever the interceptor answers a call itself, the published
    map exists and is not empty and the URL of the call includes the
    reserved segment, and the answer has status 200 or 404; when the
    map is undefined or empty, every call, the reserved ones too, goes
    to the original [fetch] with its arguments unchanged. *)
Theorem interceptor_answers_only_from_nonempty_map
    (published : option Files) (args : list Interceptor.FetchArg) :
  (forall r, Interceptor.fetch published args = Interceptor.Responded r ->
     exists files a rest,
       published = Some files /\ files <> [] /\ args = a :: rest /\
       JS.includes (Interceptor.url_of a) RESERVED = true /\
       (r.(status) = 200 \/ r.(status) = 404)) /\
  (published = None \/ published = Some [] ->
     Interceptor.fetch published args = Interceptor.Forwarded args).
Proof.
  split.
  - intros r. unfold Interceptor.fetch.
    destruct args as [|a rest]; [done|].
    destruct (JS.includes (Interceptor.url_of a) RESERVED) eqn:Hres; [|done].
    destruct published as [files|]; [|done].
    destruct files as [|f files]; [done|]. cbn [Map_size length Nat.ltb Nat.leb].
    destruct (Interceptor.lookup _ _ _); intros [= <-];
      exists (f :: files), a, rest; repeat split; auto.
  - unfold Interceptor.fetch. intros [-> | ->]; destruct args as [|a rest]; try done;
      by destruct (JS.includes (Interceptor.url_of a) RESERVED).
Qed.

Lemma interceptor_answers_only_from_nonempty_map_witness :
  (exists files a rest,
     Some marian_files = Some files /\ files <> [] /\
     [Interceptor.AString (model_url "config.json")] = a :: rest /\
     JS.includes (Interceptor.url_of a) RESERVED = true /\
     ((Response_blob_init blobJ 200
         [("Content-Type", "application/json"); ("Access-Control-Allow-Origin", "*")]).(status)
        = 200 \/
      (Response_blob_init blobJ 200
         [("Content-Type", "application/json"); ("Access-Control-Allow-Origin", "*")]).(status)
        = 404)) /\
  Interceptor.fetch (Some []) [Interceptor.AString (model_url "config.json")]
    = Interceptor.Forwarded [Interceptor.AString (model_url "config.json")].
Proof.
  split.
  - apply (proj1 (interceptor_answers_only_from_nonempty_map (Some marian_files)
                    [Interceptor.AString (model_url "config.json")])).
    reflexivity.
  - apply (proj2 (interceptor_answers_only_from_nonempty_map (Some [])
                    [Interceptor.AString (model_url "config.json")])).
    right. reflexivity.
Defined.

(** ** A miss is a 404 *)

(** The interceptor does not answer a reserved request while no map is
    published (or while the map is empty): the call is handed to the
    original [fetch], so that the 404 of the claim is not what the
    interceptor returns. *)
Lemma interceptor_forwards_when_nothing_published :
  JS.includes (model_url "config.json") RESERVED = true /\
  Interceptor.fetch None [Interceptor.AString (model_url "config.json")]
    = Interceptor.Forwarded [Interceptor.AString (model_url "config.json")] /\
  Interceptor.fetch (Some []) [Interceptor.AString (model_url "config.json")]
    = Interceptor.Forwarded [Interceptor.AString (model_url "config.json")] /\
  ~ exists r,
      Interceptor.fetch None [Interceptor.AString (model_url "config.json")]
        = Interceptor.Responded r /\ r.(status) = 404.
Proof.
  repeat split; try reflexivity. intros [r [Hr _]]. vm_compute in Hr. discriminate.
Qed.

(** C1, amended: a request under the reserved segment that no stored
    asset matches is answered with status 404 and a text/plain body made
    of a fixed message and the name that was looked for (its last
    segment for the service worker and the interceptor, the path
    without its query for the development server) by the service
    worker, by the development server, and by the fetch interceptor
    when the published map is not empty; none of them answers 200. *)
Theorem miss_is_answered_404 :
  (forall origin caches pathname,
     let relativePath := requested pathname in
     let filenameOnly := JS.or_else (basename relativePath) relativePath in
     JS.includes pathname RESERVED = true ->
     SW.lookup origin (caches_open caches SW.CACHE_NAME) relativePath filenameOnly = None ->
     SW.onfetch origin caches pathname =
       Some (Response_text_init ("File kustom tidak ditemukan di cache: " +:+ filenameOnly)
               404 [("Content-Type", "text/plain")])) /\
  (forall files a rest,
     let filenameOnly := basename (requested (Interceptor.url_of a)) in
     files <> [] ->
     JS.includes (Interceptor.url_of a) RESERVED = true ->
     Interceptor.lookup files (requested (Interceptor.url_of a)) filenameOnly = None ->
     Interceptor.fetch (Some files) (a :: rest) =
       Interceptor.Responded
         (Response_text_init ("File not found: " +:+ filenameOnly)
            404 [("Content-Type", "text/plain")])) /\
  (forall rawUrl,
     let url := JS.split_head "?" rawUrl in
     JS.startsWith url RESERVED = true ->
     Vite.middleware (Some rawUrl) =
       Vite.Ended 404 [("Content-Type", "text/plain"); ("Cache-Control", "no-store")]
         ("404 Not Found: " +:+ url)).
Proof.
  split; [|split].
  - intros origin caches pathname relativePath filenameOnly Hres Hmiss.
    unfold SW.onfetch, SW.serveCustomModel. rewrite Hres.
    fold (requested pathname). fold relativePath.
    fold (basename relativePath). fold filenameOnly. by rewrite Hmiss.
  - intros files a rest filenameOnly Hne Hres Hmiss.
    unfold Interceptor.fetch. rewrite Hres.
    fold (requested (Interceptor.url_of a)).
    fold (basename (requested (Interceptor.url_of a))).
    rewrite or_else_empty. fold filenameOnly. rewrite Hmiss.
    destruct files; [done|]. reflexivity.
  - intros rawUrl url Hpre. unfold Vite.middleware.
    change (default "" (Some rawUrl)) with rawUrl.
    rewrite or_else_empty. subst url. unfold RESERVED in Hpre. rewrite Hpre.
    by rewrite orb_true_r.
Qed.

Lemma miss_is_answered_404_witness :
  SW.onfetch "http://localhost:3000" [] "/custom-model/generation_config.json"
    = Some (Response_text_init "File kustom tidak ditemukan di cache: generation_config.json"
              404 [("Content-Type", "text/plain")]) /\
  Interceptor.fetch (Some [("config.json", blobJ)])
      [Interceptor.AString (model_url "generation_config.json")]
    = Interceptor.Responded
        (Response_text_init "File not found: generation_config.json"
           404 [("Content-Type", "text/plain")]) /\
  Vite.middleware (Some "/custom-model/generation_config.json?v=1")
    = Vite.Ended 404 [("Content-Type", "text/plain"); ("Cache-Control", "no-store")]
        "404 Not Found: /custom-model/generation_config.json".
Proof.
  destruct miss_is_answered_404 as (Hsw & Hfetch & Hvite).
  split; [|split].
  - apply (Hsw "http://localhost:3000" [] "/custom-model/generation_config.json");
      reflexivity.
  - apply (Hfetch [("config.json", blobJ)]
             (Interceptor.AString (model_url "generation_config.json")) []);
      [discriminate | reflexivity | reflexivity].
  - apply (Hvite "/custom-model/generation_config.json?v=1"). reflexivity.
Defined.

Example not_found_headers :
  (Response_text_init "x" 404 [("Content-Type", "text/plain")]).(headers) !! "content-type"
    = Some "text/plain".
Proof. reflexivity. Qed.

(** ** Synchronising a bag into the shared cache *)
Section sync_facts.
Variable origin : string.
Variable mk : Blob -> Response.



End sync_facts.

(** ** Resolution *)
Section resolution_facts.



Lemma saveFiles_shared_cache origin files cs :
  caches_open (App.saveFiles origin files cs) SW.CACHE_NAME
  = put_all origin Response_of_blob files (caches_open cs SW.CACHE_NAME).
Proof. unfold App.saveFiles. by rewrite caches_open_update, decide_True. Qed.


End resolution_facts.



(** ** The weight-file tiers *)
Section fuzzy_facts.






Lemma names_role_onnx role k : names_role role k = true -> is_onnx k = true.
Proof. unfold names_role, is_onnx. by intros [_ ?]%andb_prop. Qed.

Lemma truthy_name_onnx k : is_onnx k = true -> Interceptor.truthy_name (Some k) = Some k.
Proof.
  unfold Interceptor.truthy_name. intros H%endsWith_onnx_truthy. by rewrite H.
Qed.




End fuzzy_facts.

(** ** The view of the service worker after a bag is saved into an
       empty cache *)
Section synced_view.
Variable origin : string.
Variable mk : Blob -> Response.





End synced_view.




(** ** Requests that name a role *)
Section role_facts.









End role_facts.




(** ** The two responders on a bag with a merged and a decoder file *)

(** C4: on a bag that holds a file named "merged" before a file named
    "decoder", the two responders answer the request for
    onnx/decoder_model_merged_quantized.onnx with different files: the
    fetch interceptor looks for "decoder" first and serves
    decoder_model.onnx, the service worker takes the first cached entry
    that names "decoder" or "merged" and serves merged_model.onnx. *)
Theorem responders_disagree_on_merged_then_decoder :
  Interceptor.fetch (Some merged_then_decoder_files)
    [Interceptor.AString (model_url "onnx/decoder_model_merged_quantized.onnx")]
    = interceptor_hit "decoder_model_merged_quantized.onnx" blobB /\
  (SW.serveCustomModel "http://localhost:3000"
     (App.saveFiles "http://localhost:3000" merged_then_decoder_files [])
     "/custom-model/onnx/decoder_model_merged_quantized.onnx").(body) = BodyBlob blobA /\
  blobA <> blobB.
Proof. repeat split; try reflexivity. discriminate. Qed.

(** ** Replacing the bag and synchronising the shared cache *)




(** ** Interpreting the configuration document *)

(** Scenario A. *)
Example scenario_A :
  App.parseConfigs sample_parse App.custom marian_upload None = Some marian_manifest.
Proof. vm_compute. reflexivity. Qed.

(** The manifest is absent although the bag holds a config.json: when
    the document does not parse, and when the model source is not the
    custom one. *)
Lemma manifest_absent_with_config_present :
  Map_get [("config.json", html_blob); ("model.onnx", blobA)] "config.json" = Some html_blob /\
  App.parseConfigs sample_parse App.custom
    [("config.json", html_blob); ("model.onnx", blobA)] None = None /\
  Map_get marian_upload "config.json" = Some marian_blob /\
  App.parseConfigs sample_parse App.remote marian_upload None = None.
Proof. vm_compute. repeat split; reflexivity. Qed.

(** After the bag is replaced by a non-empty one without config.json the
    effect returns early and the manifest of the previous bag stays. *)
Lemma manifest_of_previous_bag_stays
    (JSON_parse : string -> option JSValue) (m : App.ModelConfig) :
  App.parseConfigs JSON_parse App.custom [("model.onnx", blobA)] (Some m) = Some m.
Proof. reflexivity. Qed.

(** When the configuration document is read without an exception. *)
Lemma parseConfigs_try_is_Some JSON_parse files configBlob props :
  JSON_parse (blob_text configBlob) = Some (JObject props) ->
  is_Some (JSV.includes
             (JSV.or_else (JSV.first (default JUndefined (alist_get props "architectures")))
                (JString "Unknown")) "ConditionalGeneration") ->
  is_Some (App.parseConfigs_try JSON_parse files configBlob).
Proof.
  intros Hp Harch. unfold App.parseConfigs_try. rewrite Hp. cbn [mbind option_bind JSV.prop].
  destruct (JSV.or_else _ _) as [| | | |a|items|]; cbn in Harch |- *;
    first [by destruct Harch | eauto].
Qed.

(** C3, amended: the effect resets the manifest to absent whenever the
    model source is not the custom one or the bag is empty. In custom
    mode, when the bag holds a config.json that is read without an
    exception, the manifest is the one built from that document and the
    current bag, whatever the manifest was before. Starting from an
    absent manifest in custom mode, the manifest is absent afterwards
    exactly when the bag holds no config.json or its config.json cannot
    be read. *)
Theorem manifest_follows_current_config
    (JSON_parse : string -> option JSValue) (files : Files) :
  (forall source prev,
     source <> App.custom \/ files = [] ->
     App.parseConfigs JSON_parse source files prev = None) /\
  (forall prev configBlob m,
     Map_get files "config.json" = Some configBlob ->
     App.parseConfigs_try JSON_parse files configBlob = Some m ->
     App.parseConfigs JSON_parse App.custom files prev = Some m) /\
  (App.parseConfigs JSON_parse App.custom files None = None <->
   Map_get files "config.json" = None \/
   exists configBlob,
     Map_get files "config.json" = Some configBlob /\
     App.parseConfigs_try JSON_parse files configBlob = None).
Proof.
  split; [|split].
  - intros source prev [Hs| ->]; unfold App.parseConfigs.
    + by rewrite bool_decide_eq_true_2.
    + by rewrite orb_true_r.
  - intros prev configBlob m Hget Htry. unfold App.parseConfigs.
    rewrite bool_decide_eq_false_2 by (intros H; by apply H).
    destruct files as [|f files]; [done|]. cbn [orb Map_size length].
    rewrite bool_decide_eq_false_2 by done. by rewrite Hget, Htry.
  - unfold App.parseConfigs.
    rewrite bool_decide_eq_false_2 by (intros H; by apply H). cbn [orb].
    destruct files as [|f files]; [cbn; split; [intros _; by left | done]|].
    cbn [Map_size length].
    rewrite bool_decide_eq_false_2 by done.
    destruct (Map_get (f :: files) "config.json") as [configBlob|];
      [|split; [intros _; by left | done]].
    destruct (App.parseConfigs_try JSON_parse (f :: files) configBlob) as [m|] eqn:Htry.
    + split; [done|]. intros [?|(cb & [= <-] & ?)]; congruence.
    + split; [|done]. intros _. right. eauto.
Qed.

Lemma manifest_follows_current_config_witness :
  App.parseConfigs sample_parse App.remote marian_upload (Some marian_manifest) = None /\
  App.parseConfigs sample_parse App.custom marian_upload None = Some marian_manifest /\
  App.parseConfigs sample_parse App.custom [("model.onnx", blobA)] None = None.
Proof.
  destruct (manifest_follows_current_config sample_parse marian_upload)
    as (Hreset & Hbuilt & _).
  destruct (manifest_follows_current_config sample_parse [("model.onnx", blobA)])
    as (_ & _ & Habsent).
  split; [|split].
  - apply Hreset. left. discriminate.
  - apply (Hbuilt None marian_blob marian_manifest); vm_compute; reflexivity.
  - apply Habsent. left. reflexivity.
Defined.

(** * Further properties of the responders *)

(** ** Suffixes and last segments *)
Section suffix_facts.

Lemma endsWith_refl s : JS.endsWith s s = true.
Proof. destruct s; cbn [JS.endsWith]; by rewrite String.eqb_refl. Qed.





End suffix_facts.

(** ** The responders, on a requested name *)
Section responder_forms.

(** The interceptor on a reserved request, in terms of its lookup. *)
Lemma interceptor_fetch_requested files url rest :
  files <> [] ->
  JS.includes url RESERVED = true ->
  Interceptor.fetch (Some files) (Interceptor.AString url :: rest) =
    match Interceptor.lookup files (requested url) (basename (requested url)) with
    | Some blob => interceptor_hit (basename (requested url)) blob
    | None =>
        Interceptor.Responded
          (Response_text_init ("File not found: " +:+ basename (requested url))
             404 [("Content-Type", "text/plain")])
    end.
Proof.
  intros Hne Hres. unfold Interceptor.fetch. cbn [Interceptor.url_of]. rewrite Hres.
  fold (requested url). fold (basename (requested url)). rewrite or_else_empty.
  destruct files; [done|]. reflexivity.
Qed.



Lemma mem_nonempty (files : Files) name blob : Map_get files name = Some blob -> files <> [].
Proof. by destruct files. Qed.

End responder_forms.



Section miss_facts.



End miss_facts.





(** X4: when no stored ".onnx" name contains "decoder", a request that
    ends in ".onnx", matches no stored name and asks for the decoder or
    for a merged graph (and not for the encoder) is answered by the
    fetch interceptor with the first stored ".onnx" file whose name
    contains "merged". *)
Theorem merged_file_stands_in_for_decoder (files : Files) (name m : string) :
  JS.endsWith name ONNX = true ->
  Map_get files name = None ->
  Map_get files (basename name) = None ->
  JS.includes (JS.toLowerCase (basename name)) "encoder" = false ->
  JS.includes (JS.toLowerCase (basename name)) "decoder"
    || JS.includes (JS.toLowerCase (basename name)) "merged" = true ->
  List.find (names_role "decoder") (Map_keys files) = None ->
  List.find (names_role "merged") (Map_keys files) = Some m ->
  exists blob,
    Map_get files m = Some blob /\
    forall url rest,
      JS.includes url RESERVED = true -> requested url = name ->
      Interceptor.fetch (Some files) (Interceptor.AString url :: rest)
        = interceptor_hit (basename name) blob.
Proof.
  intros Hext Hm1 Hm2 He Hdm Hnodec Hmerged.
  destruct (find_some _ _ Hmerged) as [Hin Hrole].
  destruct (alist_get_key _ _ Hin) as [blob Hb]. change (Map_get files m = Some blob) in Hb.
  exists blob. split; [done|]. intros url rest Hres <-.
  rewrite interceptor_fetch_requested by eauto using mem_nonempty.
  pose proof (endsWith_onnx_basename _ Hext) as Hbase.
  fold (basename (requested url)) in Hbase.
  unfold Interceptor.lookup. rewrite Hm1, Hm2, Hbase, He, Hdm, Hnodec, Hmerged.
  rewrite (truthy_name_onnx _ (names_role_onnx _ _ Hrole)).
  cbn [Interceptor.truthy_name]. by rewrite Hb.
Qed.

Lemma merged_file_stands_in_for_decoder_witness :
  exists blob,
    Map_get [("config.json", blobJ); ("model_merged.onnx", blobA); ("encoder_model.onnx", blobB)]
      "model_merged.onnx" = Some blob /\
    Interceptor.fetch
      (Some [("config.json", blobJ); ("model_merged.onnx", blobA); ("encoder_model.onnx", blobB)])
      [Interceptor.AString (model_url "some/path/decoder_model.onnx")]
      = interceptor_hit "decoder_model.onnx" blob.
Proof.
  destruct (merged_file_stands_in_for_decoder
              [("config.json", blobJ); ("model_merged.onnx", blobA); ("encoder_model.onnx", blobB)]
              "some/path/decoder_model.onnx" "model_merged.onnx"
              eq_refl eq_refl eq_refl eq_refl eq_refl eq_refl eq_refl)
    as (blob & Hb & Hfetch).
  exists blob. split; [exact Hb|].
  exact (Hfetch (model_url "some/path/decoder_model.onnx") [] eq_refl eq_refl).
Defined.

(** ** The query suffix *)
Section query_facts.

Lemma prefix_empty s : String.prefix "" s = true.
Proof. by destruct s. Qed.

Lemma prefix_app_l p u s : String.prefix p u = true -> String.prefix p (u +:+ s) = true.
Proof.
  revert u. induction p as [|a p IH]; intros u; [intros _; apply prefix_empty|].
  destruct u as [|b u]; [done|].
  change (String b u +:+ s) with (String b (u +:+ s)). cbn [String.prefix].
  destruct (ascii_dec a b); [apply IH | done].
Qed.

Lemma includes_app_l u s sub : JS.includes u sub = true -> JS.includes (u +:+ s) sub = true.
Proof.
  induction u as [|c u IH].
  - cbn [JS.includes]. destruct (JS.startsWith "" sub) eqn:E; [|done]. intros _.
    unfold JS.startsWith in E. destruct sub; [|done].
    by destruct ("" +:+ s).
  - rewrite includes_cons. change (String c u +:+ s) with (String c (u +:+ s)).
    rewrite includes_cons. intros [H|H]%orb_prop.
    + unfold JS.startsWith in *.
      apply (prefix_app_l _ _ s) in H.
      change (String c u +:+ s) with (String c (u +:+ s)) in H. by rewrite H.
    + rewrite (IH H). apply orb_true_r.
Qed.

Lemma split_head_strips_query u q :
  JS.includes u "?" = false -> JS.split_head "?" (u +:+ "?" +:+ q) = u.
Proof.
  induction u as [|c u IH].
  - intros _. change ("" +:+ "?" +:+ q) with (String "?" q).
    cbn [JS.split_head JS.startsWith String.prefix].
    destruct (ascii_dec "?" "?"); [|done]. by rewrite prefix_empty.
  - rewrite includes_cons. intros [Hst Hu]%orb_false_elim.
    change (String c u +:+ "?" +:+ q) with (String c (u +:+ "?" +:+ q)).
    cbn [JS.split_head JS.startsWith String.prefix] in *.
    destruct (ascii_dec "?" c); [by rewrite prefix_empty in Hst|].
    by rewrite IH.
Qed.

Lemma requested_query u q :
  JS.includes u "?" = false -> requested (u +:+ "?" +:+ q) = requested u.
Proof.
  intros Hu. unfold requested. by rewrite split_head_strips_query, split_head_absent.
Qed.

End query_facts.

(** X5: the three responders ignore the query suffix of a request: for
    a URL without '?', appending '?' and any query text changes neither
    the answer of the service worker, nor that of the development
    server, nor (for a URL that includes the reserved segment, with a
    non-empty published map) that of the fetch interceptor. *)
Theorem query_suffix_is_ignored (u q : string) :
  JS.includes u "?" = false ->
  (forall origin caches,
     SW.serveCustomModel origin caches (u +:+ "?" +:+ q)
       = SW.serveCustomModel origin caches u) /\
  Vite.middleware (Some (u +:+ "?" +:+ q)) = Vite.middleware (Some u) /\
  (forall files rest,
     files <> [] -> JS.includes u RESERVED = true ->
     Interceptor.fetch (Some files) (Interceptor.AString (u +:+ "?" +:+ q) :: rest)
       = Interceptor.fetch (Some files) (Interceptor.AString u :: rest)).
Proof.
  intros Hu. split; [|split].
  - intros origin caches. unfold SW.serveCustomModel.
    by rewrite split_head_strips_query, split_head_absent.
  - unfold Vite.middleware.
    change (default "" (Some (u +:+ "?" +:+ q))) with (u +:+ "?" +:+ q).
    change (default "" (Some u)) with u.
    by rewrite !or_else_empty, split_head_strips_query, split_head_absent.
  - intros files rest Hne Hres.
    rewrite !interceptor_fetch_requested by auto using includes_app_l.
    by rewrite requested_query.
Qed.

Lemma query_suffix_is_ignored_witness :
  Interceptor.fetch (Some marian_files) [Interceptor.AString (model_url "config.json?v=3")]
  = Interceptor.fetch (Some marian_files) [Interceptor.AString (model_url "config.json")].
Proof.
  destruct (query_suffix_is_ignored (model_url "config.json") "v=3" eq_refl)
    as (_ & _ & Hfetch).
  apply (Hfetch marian_files []); [discriminate | reflexivity].
Defined.

(** ** What a synchronisation leaves in the shared cache *)
Section sync_shape.
Variable origin : string.
Variable mk : Blob -> Response.

Lemma filter_filter_bool {A} (p q : A -> bool) (l : list A) :
  List.filter p (List.filter q l) = List.filter (fun x => q x && p x) l.
Proof.
  induction l as [|x l IH]; [done|]. cbn [List.filter].
  destruct (q x); cbn [List.filter andb]; [destruct (p x)|]; by rewrite IH.
Qed.

Lemma filter_none {A} (p : A -> bool) (l : list A) :
  (forall x, In x l -> p x = false) -> List.filter p l = [].
Proof.
  induction l as [|x l IH]; [done|]. intros H. cbn [List.filter].
  rewrite (H x) by (by left). apply IH. intros y Hy. apply H. by right.
Qed.

Lemma filter_all {A} (p : A -> bool) (l : list A) :
  (forall x, In x l -> p x = true) -> List.filter p l = l.
Proof.
  induction l as [|x l IH]; [done|]. intros H. cbn [List.filter].
  rewrite (H x) by (by left). f_equal. apply IH. intros y Hy. apply H. by right.
Qed.

Lemma file_url_elem k keys :
  file_url origin k ∈ map (file_url origin) keys <-> k ∈ keys.
Proof.
  rewrite !list_elem_of_In, in_map_iff. split.
  - intros (k' & Heq & Hin). apply resolve_url_inj in Heq. by subst.
  - eauto.
Qed.

(** The entries of other names, in their order, followed by the
    entries of the bag, in the order of the bag. *)
Lemma put_all_shape (files : Files) (c : Cache) :
  Map_wf files ->
  put_all origin mk files c
  = List.filter (fun e => negb (in_bag origin files e)) c ++ bag_entries origin mk files.
Proof.
  revert c. induction files as [|[k b] files IH]; intros c Hwf.
  - unfold put_all, bag_entries. cbn [foldl map]. rewrite app_nil_r. symmetry.
    apply filter_all. intros e _. apply negb_true_iff, bool_decide_eq_false.
    apply not_elem_of_nil.
  - apply NoDup_cons in Hwf as [Hk Hwf].
    unfold put_all in *. cbn [foldl fst snd]. rewrite IH by done.
    unfold cache_put, alist_remove. rewrite List.filter_app, filter_filter_bool.
    cbn [List.filter fst bag_entries map snd].
    assert (in_bag origin files (file_url origin k, mk b) = false) as ->.
    { unfold in_bag. apply bool_decide_eq_false. cbn [fst].
      by rewrite file_url_elem. }
    cbn [negb]. rewrite <- app_assoc. cbn [app]. f_equal.
    apply filter_ext_in. intros e _. unfold in_bag. cbn [Map_keys alist_keys map fst].
    rewrite (bool_decide_ext (e.1 ∈ file_url origin k :: map (file_url origin) (map fst files))
               (e.1 = file_url origin k \/ e.1 ∈ map (file_url origin) (Map_keys files)))
      by apply elem_of_cons.
    rewrite bool_decide_or, negb_orb. done.
Qed.

Lemma bag_entries_in_bag (files : Files) :
  List.filter (fun e => negb (in_bag origin files e)) (bag_entries origin mk files) = [].
Proof.
  apply filter_none. intros e He. apply negb_false_iff, bool_decide_eq_true.
  apply in_map_iff in He as ([k b] & <- & Hin). cbn [fst].
  apply list_elem_of_In, in_map. by apply (in_map fst) in Hin.
Qed.

Lemma put_all_idemp (files : Files) (c : Cache) :
  Map_wf files ->
  put_all origin mk files (put_all origin mk files c) = put_all origin mk files c.
Proof.
  intros Hwf. rewrite !put_all_shape by done.
  rewrite List.filter_app, bag_entries_in_bag, app_nil_r, filter_filter_bool.
  f_equal. apply filter_ext_in. intros e _. by destruct (in_bag origin files e).
Qed.

End sync_shape.

Section replace_facts.

Lemma caches_update_update cs name c1 c2 :
  caches_update (caches_update cs name c1) name c2 = caches_update cs name c2.
Proof.
  induction cs as [|[n c] cs IH]; cbn [caches_update].
  - by rewrite decide_True.
  - destruct (decide (n = name)) as [->|Hn]; cbn [caches_update].
    + by rewrite decide_True.
    + rewrite decide_False by done. by rewrite IH.
Qed.

Lemma saveFiles_idemp origin files cs :
  Map_wf files ->
  App.saveFiles origin files (App.saveFiles origin files cs) = App.saveFiles origin files cs.
Proof.
  intros Hwf. unfold App.saveFiles at 1.
  change (caches_open (App.saveFiles origin files cs) "custom-model-cache-v1")
    with (caches_open (App.saveFiles origin files cs) SW.CACHE_NAME).
  rewrite saveFiles_shared_cache.
  change (foldl _ (put_all origin Response_of_blob files (caches_open cs SW.CACHE_NAME)) files)
    with (put_all origin Response_of_blob files
            (put_all origin Response_of_blob files (caches_open cs SW.CACHE_NAME))).
  rewrite put_all_idemp by done. unfold App.saveFiles at 1.
  by rewrite caches_update_update.
Qed.

Lemma parseConfigs_idemp JSON_parse source files prev :
  App.parseConfigs JSON_parse source files (App.parseConfigs JSON_parse source files prev)
  = App.parseConfigs JSON_parse source files prev.
Proof.
  unfold App.parseConfigs.
  destruct (bool_decide (source ≠ App.custom) || bool_decide (Map_size files = 0)); [done|].
  destruct (Map_get files "config.json") as [cb|]; [|done].
  by destruct (App.parseConfigs_try JSON_parse files cb).
Qed.

End replace_facts.

(** X6: replacing the store twice by the same bag leaves the component
    state and the browser (published map, shared cache, persisted
    record) as replacing it once does: the synchronisation is
    idempotent. *)
Theorem replace_twice_is_replace_once
    (JSON_parse : string -> option JSValue) (files : Files)
    (s : App.AppState) (w : App.Browser) :
  Map_wf files ->
  let once := App.replaceFiles JSON_parse files s w in
  App.replaceFiles JSON_parse files once.1 once.2 = once.
Proof.
  intros Hwf once. subst once. unfold App.replaceFiles. cbn [fst snd].
  f_equal.
  - destruct s. cbn. by rewrite parseConfigs_idemp.
  - unfold App.syncFiles. destruct files as [|f files]; [done|].
    cbn [Map_size length Nat.ltb Nat.leb]. destruct w.
    cbn [App.set_published App.set_caches App.set_models_store App.origin App.caches].
    by rewrite saveFiles_idemp.
Qed.

Lemma replace_twice_is_replace_once_witness :
  let once := App.replaceFiles sample_parse marian_upload fresh_state controlled_browser in
  App.replaceFiles sample_parse marian_upload once.1 once.2 = once.
Proof.
  apply (replace_twice_is_replace_once sample_parse marian_upload fresh_state
           controlled_browser).
  apply (bool_decide_unpack (Map_wf marian_upload)). vm_compute. exact I.
Defined.

(** ** Results of [loadOfflineModel] *)
Section load_facts.
Variable pipeline : string -> bool -> App.Browser -> App.PipelineResult.

Lemma loadFailed_result message s w o s' w' :
  App.loadFailed message s w = (o, s', w') ->
  o = App.Returned false /\ w' = w /\ is_Some s'.(App.errorMessage) /\
  s'.(App.isModelLoading) = false /\ s'.(App.isOfflineMode) = false.
Proof. unfold App.loadFailed. intros [= <- <- <-]. cbn. eauto 10. Qed.

Lemma runPipeline_result modelId files s w o s' w' :
  App.runPipeline pipeline modelId files s w = (o, s', w') ->
  (exists q, w' = App.log_pipeline_call w modelId q) /\
  s'.(App.isModelLoading) = false /\
  ((o = App.Returned true /\ is_Some s'.(App.translatorRef)
    /\ s'.(App.loadedModelId) = Some modelId)
   \/ (o = App.Returned false /\ is_Some s'.(App.errorMessage))).
Proof.
  unfold App.runPipeline.
  destruct (pipeline _ _ _) as [t| |m].
  - intros [= <- <- <-]. cbn. split; [eauto|]. split; [done|]. left. eauto.
  - intros H. apply loadFailed_result in H as (-> & -> & ? & ? & ?). eauto 10.
  - intros H. apply loadFailed_result in H as (-> & -> & ? & ? & ?). eauto 10.
Qed.

End load_facts.

(** X7: whenever [loadOfflineModel] returns true, a translator is held
    and the loaded model id is the one of the current model source (the
    remote id, or 'custom-model'); whenever it returns false from a
    state in which no load was in progress, an error message is set and
    the loading flag is cleared. *)
Theorem load_result_matches_state
    (pipeline : string -> bool -> App.Browser -> App.PipelineResult)
    (overrideFiles : option Files) (s s' : App.AppState) (w w' : App.Browser) (b : bool) :
  App.loadOfflineModel pipeline overrideFiles s w = (App.Returned b, s', w') ->
  if b
  then is_Some s'.(App.translatorRef) /\ s'.(App.loadedModelId) = Some (targetModelId s)
  else s.(App.isModelLoading) = false ->
       is_Some s'.(App.errorMessage) /\ s'.(App.isModelLoading) = false.
Proof.
  unfold App.loadOfflineModel. fold (targetModelId s).
  destruct (bool_decide (is_Some (App.translatorRef s))
            && bool_decide (App.loadedModelId s = Some (targetModelId s))
            && negb (bool_decide (is_Some overrideFiles))) eqn:Hskip.
  { intros [= <- <- <-].
    apply andb_prop in Hskip as [Hskip _]. apply andb_prop in Hskip as [Ht Hl].
    by apply bool_decide_eq_true in Ht, Hl. }
  destruct (App.isModelLoading s) eqn:Hloading.
  { intros [= <- <- <-]. by cbn. }
  assert (forall x : bool,
    App.modelSource (App.setErrorMessage (App.setIsModelLoading
      (if x then App.set_translatorRef s None else s) true) None) = App.modelSource s
    /\ App.remoteModelId (App.setErrorMessage (App.setIsModelLoading
      (if x then App.set_translatorRef s None else s) true) None) = App.remoteModelId s)
    as Hkeep by (by intros []).
  destruct (Hkeep (bool_decide (App.loadedModelId s ≠ Some (targetModelId s)))) as [Hsrc Hrid].
  set (s0 := App.setErrorMessage (App.setIsModelLoading _ true) None) in *.
  rewrite Hsrc. unfold targetModelId.
  destruct (App.modelSource s) eqn:Hms.
  - rewrite Hrid. intros H. apply runPipeline_result in H as (_ & Hl & [H|H]).
    + destruct H as ([= ->] & ? & ?). done.
    + destruct H as ([= ->] & ?). done.
  - destruct (negb (App.sw_supported w)); [done|].
    destruct (negb (App.sw_ready w)); [done|].
    destruct (negb (App.sw_controller w)).
    + intros [= <- <- <-]. cbn. eauto.
    + intros H. apply runPipeline_result in H as (_ & Hl & [H|H]).
      * destruct H as ([= ->] & ? & ?). done.
      * destruct H as ([= ->] & ?). done.
Qed.

Lemma load_result_matches_state_witness :
  is_Some (App.errorMessage
             (App.loadOfflineModel (fun _ _ _ => App.Failed (Some "Unexpected token < in JSON"))
                None idle_custom_state controlled_browser).1.2)
  /\ App.isModelLoading
       (App.loadOfflineModel (fun _ _ _ => App.Failed (Some "Unexpected token < in JSON"))
          None idle_custom_state controlled_browser).1.2 = false.
Proof.
  destruct (App.loadOfflineModel (fun _ _ _ => App.Failed (Some "Unexpected token < in JSON"))
              None idle_custom_state controlled_browser) as [[o s'] w'] eqn:Hrun.
  assert (o = App.Returned false) as -> by (vm_compute in Hrun; congruence).
  exact (load_result_matches_state _ _ _ _ _ _ false Hrun eq_refl).
Defined.





Section prepare_facts.



End prepare_facts.



(** * More of the application *)

Example restore_orders_indices :
  Storage.restoreFiles (Some [("model.onnx", blobA); ("10", blobB); ("2", blobJ);
                              ("__proto__", blobA); ("007", blobB)])
  = Some [("2", blobJ); ("10", blobB); ("model.onnx", blobA); ("007", blobB)].
Proof. vm_compute. reflexivity. Qed.

(** ** After a reset *)
Section reset_facts.



End reset_facts.


(** ** Restoring what was saved *)
Section restore_facts.

Lemma Map_set_fresh (m : Files) k b :
  ~ In k (Map_keys m) -> Map_set m k b = m ++ [(k, b)].
Proof.
  induction m as [|[k' b'] m IH]; [done|]. cbn [Map_set Map_keys alist_keys map fst].
  intros Hk. rewrite decide_False by (intros ->; apply Hk; by left).
  cbn [app]. f_equal. apply IH. intros ?. apply Hk. by right.
Qed.

Lemma foldl_Map_set_fresh (files acc : Files) :
  NoDup (Map_keys (acc ++ files)) ->
  foldl (fun m nb => Map_set m nb.1 nb.2) acc files = acc ++ files.
Proof.
  revert acc. induction files as [|[k b] files IH]; intros acc Hnd.
  - by rewrite app_nil_r.
  - cbn [foldl fst snd]. rewrite Map_set_fresh.
    + rewrite IH; rewrite <- app_assoc; done.
    + unfold Map_keys, alist_keys in *. rewrite map_app in Hnd.
      apply NoDup_app in Hnd as (_ & Hdisj & _). intros Hin.
      apply (Hdisj k); [by apply list_elem_of_In|]. cbn. apply elem_of_cons. by left.
Qed.

Lemma stored_object_fresh (files acc : Files) :
  NoDup (Map_keys (acc ++ files)) ->
  ~ In "__proto__" (Map_keys files) ->
  foldl (fun o nb => Storage.object_assign o nb.1 nb.2) acc files = acc ++ files.
Proof.
  intros Hnd Hproto. rewrite <- (foldl_Map_set_fresh files acc Hnd).
  clear Hnd. revert acc. induction files as [|[k b] files IH]; intros acc; [done|].
  cbn [foldl fst snd]. unfold Storage.object_assign at 2.
  rewrite decide_False by (intros ->; apply Hproto; by left).
  apply IH. intros ?. apply Hproto. by right.
Qed.

Lemma snd_indexed (o : Files) :
  snd <$> omap Storage.indexed o
  = List.filter (fun e => bool_decide (is_Some (Storage.array_index e.1))) o.
Proof.
  induction o as [|e o IH]; [done|]. cbn [omap list_omap List.filter].
  unfold Storage.indexed at 1. destruct (Storage.array_index e.1) as [i|] eqn:E.
  - rewrite bool_decide_eq_true_2 by eauto. cbn [fmap option_fmap option_map list_fmap snd].
    by rewrite <- IH.
  - rewrite bool_decide_eq_false_2 by (by intros [? ?]). exact IH.
Qed.

Lemma filter_partition_Permutation {A} (p : A -> bool) (l : list A) :
  List.filter p l ++ List.filter (fun x => negb (p x)) l ≡ₚ l.
Proof.
  induction l as [|x l IH]; [done|]. cbn [List.filter].
  destruct (p x); cbn [negb app].
  - by constructor.
  - rewrite <- Permutation_middle. by constructor.
Qed.

Lemma Object_entries_Permutation (o : Files) : Storage.Object_entries o ≡ₚ o.
Proof.
  unfold Storage.Object_entries.
  rewrite (merge_sort_Permutation Storage.index_le), snd_indexed.
  apply filter_partition_Permutation.
Qed.

Lemma Object_entries_no_index (o : Files) :
  (forall k, In k (Map_keys o) -> Storage.array_index k = None) ->
  Storage.Object_entries o = o.
Proof.
  intros Hno. unfold Storage.Object_entries.
  assert (omap Storage.indexed o = []) as ->.
  { induction o as [|e o IH]; [done|]. cbn [omap list_omap]. unfold Storage.indexed at 1.
    rewrite (Hno e.1) by (by left). cbn. apply IH. intros k Hk. apply Hno. by right. }
  cbn. apply filter_all. intros e He.
  rewrite (Hno e.1) by (by apply (in_map fst) in He).
  apply negb_true_iff, bool_decide_eq_false. by intros [? ?].
Qed.

Lemma alist_get_In_NoDup {V} (l : list (string * V)) k v :
  NoDup (alist_keys l) -> In (k, v) l -> alist_get l k = Some v.
Proof.
  induction l as [|[k' v'] l IH]; [done|]. cbn [alist_keys map fst alist_get].
  intros [Hk Hnd]%NoDup_cons [[= -> ->]|Hin].
  - by rewrite decide_True.
  - rewrite decide_False; [by apply IH|]. intros ->. apply Hk.
    apply list_elem_of_In. by apply (in_map fst) in Hin.
Qed.

Lemma alist_get_Permutation {V} (l l' : list (string * V)) k :
  NoDup (alist_keys l) -> l ≡ₚ l' -> alist_get l' k = alist_get l k.
Proof.
  intros Hnd Hperm.
  assert (NoDup (alist_keys l')) as Hnd'.
  { unfold alist_keys in *. by rewrite <- Hperm. }
  destruct (alist_get l k) as [v|] eqn:Hget.
  - apply alist_get_In_NoDup; [done|]. apply alist_get_Some_In in Hget.
    apply list_elem_of_In. rewrite <- Hperm. by apply list_elem_of_In.
  - apply alist_get_not_key. intros Hin%alist_get_key. destruct Hin as [v Hv].
    apply alist_get_Some_In, list_elem_of_In in Hv. rewrite <- Hperm in Hv.
    apply list_elem_of_In, (in_map fst) in Hv.
    apply alist_get_key in Hv as [v' Hv']. cbn [fst] in Hv'. congruence.
Qed.

End restore_facts.

(** X12: after a non-empty bag without a file named '__proto__' has
    been synchronised, the restoration at the next start gives a map
    with exactly the entries of the bag: the same keys with the same
    blobs, and in the same order unless a file name is an array index
    (such names come first, in ascending order). *)
Theorem restore_returns_the_saved_bag (files : Files) (w : App.Browser) :
  Map_wf files ->
  files <> [] ->
  ~ In "__proto__" (Map_keys files) ->
  exists restored,
    Storage.restoreFiles (App.syncFiles files w).(App.models_store) = Some restored /\
    restored ≡ₚ files /\
    Map_wf restored /\
    (forall name, Map_get restored name = Map_get files name) /\
    ((forall name, In name (Map_keys files) -> Storage.array_index name = None) ->
     restored = files).
Proof.
  intros Hwf Hne Hproto.
  assert ((App.syncFiles files w).(App.models_store) = Some files) as ->.
  { unfold App.syncFiles. destruct files; [done|]. reflexivity. }
  unfold Storage.restoreFiles, Storage.stored_object.
  rewrite (stored_object_fresh files []) by done. cbn [app].
  assert (NoDup (Map_keys (Storage.Object_entries files))) as Hnd.
  { unfold Map_keys, alist_keys. by rewrite Object_entries_Permutation. }
  rewrite (foldl_Map_set_fresh _ []) by done. cbn [app].
  eexists. split; [reflexivity|]. split; [apply Object_entries_Permutation|].
  split; [exact Hnd|]. split.
  - intros name. apply alist_get_Permutation; [done|].
    symmetry. apply Object_entries_Permutation.
  - apply Object_entries_no_index.
Qed.

Lemma restore_returns_the_saved_bag_witness :
  exists restored,
    Storage.restoreFiles (App.syncFiles marian_upload controlled_browser).(App.models_store)
      = Some restored /\
    (forall name, Map_get restored name = Map_get marian_upload name) /\
    restored = marian_upload.
Proof.
  destruct (restore_returns_the_saved_bag marian_upload controlled_browser)
    as (restored & Hr & _ & _ & Hget & Hsame).
  - apply (bool_decide_unpack (Map_wf marian_upload)). vm_compute. exact I.
  - discriminate.
  - vm_compute. intros [H|[H|[H|[H|[]]]]]; discriminate.
  - exists restored. split; [exact Hr|]. split; [exact Hget|]. apply Hsame.
    intros name Hname. vm_compute in Hname.
    destruct Hname as [<-|[<-|[<-|[<-|[]]]]]; reflexivity.
Defined.


Section history_facts.
Import History.

Lemma find_take {A} (p : A -> bool) (n : nat) (l : list A) (x : A) :
  List.find p (take n l) = Some x -> List.find p l = Some x.
Proof.
  revert n. induction l as [|y l IH]; intros [|n]; try done.
  cbn [take List.find]. destruct (p y); eauto.
Qed.

Lemma find_filter_implied {A} (p q : A -> bool) (l : list A) :
  (forall x, p x = true -> q x = true) ->
  List.find p (List.filter q l) = List.find p l.
Proof.
  intros Hpq. induction l as [|x l IH]; [done|]. cbn [List.filter List.find].
  destruct (p x) eqn:Hp.
  - rewrite (Hpq x Hp). cbn [List.find]. by rewrite Hp.
  - destruct (q x); cbn [List.find]; by rewrite ?Hp.
Qed.

Lemma named_other n name h : n <> name -> named n h = true -> negb (named name h) = true.
Proof.
  unfold named. intros Hne Hn%bool_decide_eq_true.
  apply negb_true_iff, bool_decide_eq_false. congruence.
Qed.

Lemma filter_length_le {A} (p : A -> bool) (l : list A) : length (List.filter p l) <= length l.
Proof. induction l as [|x l IH]; cbn [List.filter length]; [lia|]. destruct (p x); cbn; lia. Qed.

Lemma filter_sublist {A} (p : A -> bool) (l : list A) : List.filter p l `sublist_of` l.
Proof.
  induction l as [|x l IH]; cbn [List.filter]; [constructor|].
  destruct (p x); by constructor.
Qed.

Lemma names_filtered name prev :
  name ∉ fileName <$> List.filter (fun h => negb (named name h)) prev.
Proof.
  intros (h & -> & Hin)%list_elem_of_fmap.
  apply list_elem_of_In, filter_In in Hin as [_ Hin].
  apply negb_true_iff, bool_decide_eq_false in Hin. done.
Qed.

End history_facts.

(** X13: saving a book under a non-empty file name puts its entry at
    the head of the history, where opening a file of that name finds
    it; the history holds at most 50 entries and at most one entry per
    file name if it did before; the entries of other file names are
    never altered, and they are all kept while fewer than 50 were
    stored. *)
Theorem saved_book_is_found_again
    (now : string) (pairs : list History.TextPair) (name : string) (prog : Z)
    (prev : list History.HistoryEntry) :
  name <> "" ->
  let history := History.saveCurrentToHistory now pairs name prog prev in
  History.existing name history = Some (History.mkHistoryEntry name pairs now prog) /\
  length history <= 50 /\
  (NoDup (History.fileName <$> prev) -> NoDup (History.fileName <$> history)) /\
  (forall other e,
     other <> name -> History.existing other history = Some e ->
     History.existing other prev = Some e) /\
  (length prev < 50 ->
   forall other, other <> name -> History.existing other history = History.existing other prev).
Proof.
  intros Hname history. subst history. unfold History.saveCurrentToHistory.
  assert (JS.truthy name = true) as -> by (by destruct name). cbn [negb].
  split; [|split; [|split; [|split]]].
  - cbn [take]. unfold History.existing. cbn [List.find]. unfold History.named at 1.
    cbn [History.fileName]. by rewrite bool_decide_eq_true_2.
  - rewrite length_take. lia.
  - intros Hnd. rewrite fmap_take. eapply sublist_NoDup; [|apply sublist_take].
    cbn [fmap list_fmap History.fileName]. apply NoDup_cons. split.
    + apply names_filtered.
    + eapply sublist_NoDup; [exact Hnd|]. apply fmap_sublist, filter_sublist.
  - intros other e Hne Hfind. unfold History.existing in *.
    apply find_take in Hfind. cbn [List.find] in Hfind.
    unfold History.named at 1 in Hfind. cbn [History.fileName] in Hfind.
    rewrite bool_decide_eq_false_2 in Hfind by congruence.
    rewrite find_filter_implied in Hfind; [done|].
    intros h. by apply named_other.
  - intros Hlen other Hne. unfold History.existing.
    rewrite take_ge.
    + cbn [List.find]. unfold History.named at 1. cbn [History.fileName].
      rewrite bool_decide_eq_false_2 by congruence.
      apply find_filter_implied. intros h. by apply named_other.
    + cbn [length].
      pose proof (filter_length_le (fun h => negb (History.named name h)) prev). lia.
Qed.

Lemma saved_book_is_found_again_witness :
  History.existing "book.pdf"
    (History.saveCurrentToHistory "1/1/2026" [] "book.pdf" 40
       [History.mkHistoryEntry "book.pdf" [] "31/12/2025" 10;
        History.mkHistoryEntry "other.txt" [] "30/12/2025" 100])
  = Some (History.mkHistoryEntry "book.pdf" [] "1/1/2026" 40) /\
  History.existing "other.txt"
    (History.saveCurrentToHistory "1/1/2026" [] "book.pdf" 40
       [History.mkHistoryEntry "book.pdf" [] "31/12/2025" 10;
        History.mkHistoryEntry "other.txt" [] "30/12/2025" 100])
  = History.existing "other.txt"
      [History.mkHistoryEntry "book.pdf" [] "31/12/2025" 10;
       History.mkHistoryEntry "other.txt" [] "30/12/2025" 100].
Proof.
  destruct (saved_book_is_found_again "1/1/2026" [] "book.pdf" 40
              [History.mkHistoryEntry "book.pdf" [] "31/12/2025" 10;
               History.mkHistoryEntry "other.txt" [] "30/12/2025" 100])
    as (Hfound & _ & _ & _ & Hkept).
  - discriminate.
  - split; [exact Hfound|]. apply Hkept; [cbn; lia | discriminate].
Defined.

Section import_facts.
Import History.

Lemma map_set_get m k h k' :
  alist_get (map_set m k h) k' = if decide (k = k') then Some h else alist_get m k'.
Proof.
  induction m as [|[k0 h0] m IH]; cbn [map_set alist_get]; [done|].
  destruct (decide (k0 = k)) as [->|Hk0]; cbn [alist_get].
  - by destruct (decide (k = k')).
  - rewrite IH. destruct (decide (k0 = k')) as [->|]; [|done].
    by rewrite decide_False by congruence.
Qed.

Lemma map_set_keys m k h :
  alist_keys (map_set m k h)
  = if bool_decide (k ∈ alist_keys m) then alist_keys m else alist_keys m ++ [k].
Proof.
  unfold alist_keys. induction m as [|[k0 h0] m IH]; [done|]. cbn [map_set].
  destruct (decide (k0 = k)) as [->|Hk0]; cbn [map fst].
  - by rewrite bool_decide_eq_true_2 by (apply elem_of_cons; by left).
  - rewrite IH. rewrite (bool_decide_ext (k ∈ k0 :: map fst m) (k ∈ map fst m)).
    + by destruct (bool_decide _).
    + rewrite elem_of_cons. split; [intros [?|?]; [congruence|done] | auto].
Qed.

Lemma map_set_NoDup m k h : NoDup (alist_keys m) -> NoDup (alist_keys (map_set m k h)).
Proof.
  intros Hnd. rewrite map_set_keys. case_bool_decide as Hk; [done|].
  apply NoDup_app. split; [done|]. split; [|apply NoDup_singleton].
  intros x Hx ->%list_elem_of_singleton. done.
Qed.

Lemma map_set_keyed m h : keyed m -> keyed (map_set m h.(fileName) h).
Proof.
  intros Hm. induction m as [|[k0 h0] m IH]; cbn [map_set].
  - intros k h' [[= <- <-]|[]]. done.
  - destruct (decide (k0 = fileName h)) as [->|Hk0].
    + intros k h' [[= <- <-]|Hin]; [done|]. apply Hm. by right.
    + intros k h' [[= <- <-]|Hin]; [apply Hm; by left|].
      apply IH; [|done]. intros ? ? ?. apply Hm. by right.
Qed.

Lemma find_app_Some {A} (p : A -> bool) (l1 l2 : list A) :
  List.find p (l1 ++ l2)
  = match List.find p l1 with Some x => Some x | None => List.find p l2 end.
Proof. induction l1 as [|x l1 IH]; [done|]. cbn [app List.find]. by destruct (p x). Qed.

(** The map built from a list of entries: one key per name, holding the
    last entry of that name. *)
Lemma map_of_fold items acc :
  NoDup (alist_keys acc) -> keyed acc ->
  let m := foldl (fun m h => map_set m h.(fileName) h) acc items in
  NoDup (alist_keys m) /\ keyed m /\
  forall k, alist_get m k
            = match last_named k items with Some h => Some h | None => alist_get acc k end.
Proof.
  revert acc. induction items as [|h items IH]; intros acc Hnd Hk; [done|].
  cbn [foldl]. destruct (IH (map_set acc (fileName h) h)) as (Hnd' & Hk' & Hget).
  { by apply map_set_NoDup. } { by apply map_set_keyed. }
  split; [done|]. split; [done|]. intros k. rewrite Hget.
  unfold last_named. cbn [rev]. rewrite find_app_Some.
  destruct (List.find (named k) (rev items)); [done|].
  rewrite map_set_get. cbn [List.find]. unfold named.
  destruct (decide (fileName h = k)) as [Heq|Hne].
  - by rewrite bool_decide_eq_true_2.
  - by rewrite bool_decide_eq_false_2.
Qed.

Lemma existing_values m name :
  keyed m -> existing name (map snd m) = alist_get m name.
Proof.
  intros Hk. unfold existing. induction m as [|[k h] m IH]; [done|].
  cbn [map snd List.find alist_get]. unfold named at 1.
  rewrite (Hk k h) by (by left).
  destruct (decide (k = name)) as [->|Hne].
  - by rewrite bool_decide_eq_true_2.
  - rewrite bool_decide_eq_false_2 by done. apply IH. intros ? ? ?. apply Hk. by right.
Qed.

Lemma names_values m : keyed m -> fileName <$> map snd m = alist_keys m.
Proof.
  intros Hk. induction m as [|[k h] m IH]; [done|].
  cbn [map snd fmap list_fmap alist_keys fst]. rewrite (Hk k h) by (by left).
  f_equal. apply IH. intros ? ? ?. apply Hk. by right.
Qed.

End import_facts.

(** X14: importing a history file leaves at most 50 entries and one
    entry per file name; the entry kept for a name is the last one of
    that name in the imported entries followed by the stored ones, so
    that an entry already stored is never replaced by an imported one. *)
Theorem import_never_replaces_stored_entries
    (imported prev : list History.HistoryEntry) :
  let history := History.importHistory imported prev in
  length history <= 50 /\
  NoDup (History.fileName <$> history) /\
  (forall name e,
     History.existing name history = Some e ->
     match History.last_named name prev with
     | Some stored => e = stored
     | None => History.last_named name imported = Some e
     end).
Proof.
  intros history. subst history. unfold History.importHistory.
  destruct (map_of_fold (imported ++ prev) []) as (Hnd & Hk & Hget);
    [constructor | by intros ? ? [] |].
  fold (History.map_of (imported ++ prev)) in Hnd, Hk, Hget.
  split; [rewrite length_take; lia|]. split.
  - rewrite fmap_take. eapply sublist_NoDup; [|apply sublist_take].
    by rewrite names_values.
  - intros name e Hfind. unfold History.existing in Hfind. apply find_take in Hfind.
    fold (History.existing name (map snd (History.map_of (imported ++ prev)))) in Hfind.
    rewrite existing_values, Hget in Hfind by done.
    unfold History.last_named in *. rewrite rev_app_distr, find_app_Some in Hfind.
    cbn [alist_get] in Hfind.
    destruct (List.find (History.named name) (rev prev)); [congruence|].
    by destruct (List.find (History.named name) (rev imported)).
Qed.

Lemma import_never_replaces_stored_entries_witness :
  let imported := [History.mkHistoryEntry "book.pdf" [] "imported" 100;
                   History.mkHistoryEntry "new.txt" [] "imported" 5] in
  let prev := [History.mkHistoryEntry "book.pdf" [] "stored" 40] in
  let e := History.mkHistoryEntry "book.pdf" [] "stored" 40 in
  History.existing "book.pdf" (History.importHistory imported prev) = Some e /\
  match History.last_named "book.pdf" prev with
  | Some stored => e = stored
  | None => History.last_named "book.pdf" imported = Some e
  end.
Proof.
  intros imported prev e. split; [reflexivity|].
  exact (proj2 (proj2 (import_never_replaces_stored_entries imported prev))
           "book.pdf" e eq_refl).
Defined.

Example import_keeps_the_stored_entry :
  History.importHistory
    [History.mkHistoryEntry "book.pdf" [] "imported" 100;
     History.mkHistoryEntry "new.txt" [] "imported" 5]
    [History.mkHistoryEntry "book.pdf" [] "stored" 40]
  = [History.mkHistoryEntry "book.pdf" [] "stored" 40;
     History.mkHistoryEntry "new.txt" [] "imported" 5].
Proof. reflexivity. Qed.

(** ** When the two responders agree *)
Section agreement_facts.







Variable origin : string.
Variable files : Files.
Hypothesis Hwf : Map_wf files.
Hypothesis Horigin_enc : JS.includes (JS.toLowerCase origin) "encoder" = false.
Hypothesis Horigin_dec : JS.includes (JS.toLowerCase origin) "decoder" = false.
Hypothesis Horigin_mer : JS.includes (JS.toLowerCase origin) "merged" = false.
Hypothesis Hno_merged :
  forall k, In k (Map_keys files) -> JS.includes (JS.toLowerCase k) "merged" = false.
Hypothesis Hno_empty : Map_get files "" = None.







End agreement_facts.



(** * Sentence splitting *)

Example split_sample :
  Sentences.split Sentences.sample_text
  = [ [72; 101; 108; 108; 111; 32; 119; 111; 114; 108; 100; 46];
      [72; 111; 119; 32; 97; 114; 101; 32; 121; 111; 117; 63];
      [70; 105; 110; 101; 46] ]%N.
Proof. reflexivity. Qed.

Example sentences_sample :
  Sentences.splitIntoSentences Sentences.sample_text
  = [ [72; 101; 108; 108; 111; 32; 119; 111; 114; 108; 100; 46];
      [72; 111; 119; 32; 97; 114; 101; 32; 121; 111; 117; 63] ]%N.
Proof. reflexivity. Qed.

Example split_empty_text : Sentences.split [] = [[]].
Proof. reflexivity. Qed.

Example split_trailing_separator :
  Sentences.split [97; 46; 32]%N = [[97; 46]%N; []].
Proof. reflexivity. Qed.

Example split_leading_space_is_kept :
  Sentences.split [32; 97; 46]%N = [[32; 97; 46]%N].
Proof. reflexivity. Qed.

Section sentence_facts.
Import Sentences.

Lemma terminator_not_space c : is_terminator c = true -> is_space c = false.
Proof.
  unfold is_terminator. intros H.
  repeat (apply orb_prop in H as [H|H]); apply N.eqb_eq in H; by subst.
Qed.

Lemma space_not_terminator c : is_space c = true -> is_terminator c = false.
Proof.
  intros Hs. destruct (is_terminator c) eqn:Ht; [|done].
  apply terminator_not_space in Ht. congruence.
Qed.

Lemma pieces_nonempty in_sep prev s : pieces in_sep prev s <> [].
Proof.
  revert in_sep prev. induction s as [|c s IH]; intros in_sep prev; [done|].
  cbn [pieces]. destruct (in_sep && is_space c); [apply IH|].
  destruct (is_space c && after_terminator prev); [done|].
  unfold cons_head. by destruct (pieces false (Some c) s).
Qed.

Lemma cons_head_app c ps qs : ps <> [] -> cons_head c (ps ++ qs) = cons_head c ps ++ qs.
Proof. by destruct ps. Qed.

(** *** Pieces are parts of the text *)

Lemma part_of_cons c p s : part_of p s -> part_of p (c :: s).
Proof. intros (l1 & l2 & ->). by exists (c :: l1), l2. Qed.

Lemma part_of_app_r p a s : part_of p s -> part_of p (a ++ s).
Proof. intros (l1 & l2 & ->). exists (a ++ l1), l2. by rewrite <- app_assoc. Qed.

Lemma part_of_app_l p s b : part_of p s -> part_of p (s ++ b).
Proof. intros (l1 & l2 & ->). exists l1, (l2 ++ b). by rewrite <- !app_assoc. Qed.

Lemma part_of_trans p q s : part_of p q -> part_of q s -> part_of p s.
Proof.
  intros (a & b & ->) (l1 & l2 & ->). exists (l1 ++ a), (b ++ l2).
  by rewrite <- !app_assoc.
Qed.

Lemma pieces_shape in_sep prev s :
  exists p ps w rest,
    pieces in_sep prev s = p :: ps /\
    s = w ++ p ++ rest /\
    (in_sep = false -> w = []) /\
    Forall (fun q => part_of q rest) ps.
Proof.
  revert in_sep prev. induction s as [|c s IH]; intros in_sep prev.
  { by exists [], [], [], []. }
  cbn [pieces]. destruct (in_sep && is_space c) eqn:Hskip.
  { destruct (IH true (Some c)) as (p & ps & w & rest & -> & -> & _ & Hps).
    exists p, ps, (c :: w), rest. repeat split; [|done].
    intros ->. discriminate. }
  destruct (is_space c && after_terminator prev) eqn:Hsep.
  { destruct (IH true (Some c)) as (p & ps & w & rest & -> & -> & _ & Hps).
    exists [], (p :: ps), [], (c :: w ++ p ++ rest). repeat split.
    constructor.
    - by exists (c :: w), rest.
    - eapply Forall_impl; [exact Hps|]. intros q Hq.
      apply part_of_cons, part_of_app_r, part_of_app_r, Hq. }
  destruct (IH false (Some c)) as (p & ps & w & rest & -> & -> & Hw & Hps).
  rewrite (Hw eq_refl). exists (c :: p), ps, [], rest. by repeat split.
Qed.

Lemma pieces_part_of in_sep prev s p : In p (pieces in_sep prev s) -> part_of p s.
Proof.
  destruct (pieces_shape in_sep prev s) as (p0 & ps & w & rest & -> & -> & _ & Hps).
  intros [<-|Hin].
  - by exists w, rest.
  - rewrite Forall_forall in Hps. apply list_elem_of_In, Hps in Hin.
    by apply part_of_app_r, part_of_app_r.
Qed.

(** *** Trimming *)

Lemma trimStart_suffix s : exists w, s = w ++ trimStart s /\ Forall (fun c => is_space c = true) w.
Proof.
  induction s as [|c s (w & IH & Hw)]; [by exists []|].
  cbn [trimStart]. destruct (is_space c) eqn:Hc.
  - exists (c :: w). split; [by rewrite IH at 1|by constructor].
  - by exists [].
Qed.

Lemma trimStart_head s c : head (trimStart s) = Some c -> is_space c = false.
Proof.
  induction s as [|d s IH]; [done|]. cbn [trimStart].
  destruct (is_space d) eqn:Hd; [done|]. by intros [= <-].
Qed.

Lemma trimStart_spaces w s :
  Forall (fun c => is_space c = true) w -> trimStart (w ++ s) = trimStart s.
Proof. induction 1 as [|c w Hc _ IH]; [done|]. cbn [app trimStart]. by rewrite Hc. Qed.

Lemma trimStart_id s :
  (forall c, head s = Some c -> is_space c = false) -> trimStart s = s.
Proof. destruct s as [|c s]; [done|]. intros H. cbn. by rewrite (H c eq_refl). Qed.

Lemma trimEnd_prefix s :
  exists w, s = trimEnd s ++ w /\ Forall (fun c => is_space c = true) w.
Proof.
  unfold trimEnd. destruct (trimStart_suffix (rev s)) as (w & Hs & Hw).
  exists (rev w). split; [|by apply Forall_rev].
  rewrite <- rev_app_distr, <- Hs. by rewrite rev_involutive.
Qed.

Lemma last_rev {A} (l : list A) : last (rev l) = head l.
Proof. destruct l as [|x l]; [done|]. cbn [rev]. by rewrite last_snoc. Qed.

Lemma trimEnd_last s c : last (trimEnd s) = Some c -> is_space c = false.
Proof. unfold trimEnd. rewrite last_rev. apply trimStart_head. Qed.

Lemma trim_part_of s : part_of (trim s) s.
Proof.
  unfold trim. destruct (trimStart_suffix s) as (w & Hs & _).
  destruct (trimEnd_prefix (trimStart s)) as (w' & Hs' & _).
  exists w, w'. by rewrite <- Hs', <- Hs.
Qed.

Lemma trim_head s c : head (trim s) = Some c -> is_space c = false.
Proof.
  unfold trim. destruct (trimEnd_prefix (trimStart s)) as (w & Hs & _).
  intros Hh. apply (trimStart_head s). rewrite Hs.
  by destruct (trimEnd (trimStart s)).
Qed.

Lemma trim_last s c : last (trim s) = Some c -> is_space c = false.
Proof. apply trimEnd_last. Qed.

Lemma in_sentences text s :
  In s (splitIntoSentences text) <->
  5 < length s /\ exists p, In p (split text) /\ s = trim p.
Proof.
  unfold splitIntoSentences. rewrite filter_In, in_map_iff, Nat.ltb_lt.
  split.
  - intros [(p & <- & Hp) Hlen]. eauto.
  - intros (Hlen & p & Hp & ->). eauto.
Qed.

End sentence_facts.

(** X16: every sentence [splitIntoSentences] returns is a contiguous
    part of the text, longer than five code units, that neither begins
    nor ends with white space. *)
Theorem sentences_are_trimmed_parts_of_the_text (text s : Sentences.Str) :
  In s (Sentences.splitIntoSentences text) ->
  5 < length s /\
  (exists l1 l2, text = l1 ++ s ++ l2) /\
  (forall c, head s = Some c -> Sentences.is_space c = false) /\
  (forall c, last s = Some c -> Sentences.is_space c = false).
Proof.
  intros (Hlen & p & Hp & ->)%in_sentences. repeat split.
  - done.
  - apply (part_of_trans _ p); [apply trim_part_of|].
    by apply pieces_part_of in Hp.
  - apply trim_head.
  - apply trim_last.
Qed.

Lemma sentences_are_trimmed_parts_of_the_text_witness :
  let s := [72; 111; 119; 32; 97; 114; 101; 32; 121; 111; 117; 63]%N in
  5 < length s /\
  (exists l1 l2, Sentences.sample_text = l1 ++ s ++ l2) /\
  (forall c, head s = Some c -> Sentences.is_space c = false) /\
  (forall c, last s = Some c -> Sentences.is_space c = false).
Proof.
  apply (sentences_are_trimmed_parts_of_the_text Sentences.sample_text).
  vm_compute. right. left. reflexivity.
Defined.

Section boundary_facts.
Import Sentences.

Lemma no_boundary_weaken prev s : no_boundary prev s = true -> no_boundary None s = true.
Proof.
  destruct s as [|c s]; [done|]. cbn [no_boundary after_terminator].
  intros [_ H]%andb_prop. by rewrite andb_false_r.
Qed.

Lemma no_boundary_app_r prev a s :
  no_boundary prev (a ++ s) = true -> no_boundary None s = true.
Proof.
  revert prev. induction a as [|c a IH]; intros prev; cbn [app].
  - apply no_boundary_weaken.
  - cbn [no_boundary]. intros [_ H]%andb_prop. by apply IH in H.
Qed.

Lemma no_boundary_app_l prev s b :
  no_boundary prev (s ++ b) = true -> no_boundary prev s = true.
Proof.
  revert prev. induction s as [|c s IH]; intros prev; [done|].
  cbn [app no_boundary]. intros [-> H]%andb_prop. by apply IH in H.
Qed.

Lemma no_boundary_part p s :
  part_of p s -> no_boundary None s = true -> no_boundary None p = true.
Proof. intros (l1 & l2 & ->) H. by apply no_boundary_app_r, no_boundary_app_l in H. Qed.

Lemma no_boundary_adjacent prev l1 c d l2 :
  no_boundary prev (l1 ++ c :: d :: l2) = true ->
  is_terminator c = true -> is_space d = false.
Proof.
  revert prev. induction l1 as [|x l1 IH]; intros prev; cbn [app no_boundary].
  - intros [_ [H _]%andb_prop]%andb_prop Hc. cbn [after_terminator] in H.
    rewrite Hc, andb_true_r in H. by apply negb_true_iff in H.
  - intros [_ H]%andb_prop Hc. by apply (IH _ H).
Qed.

(** The head piece has no boundary after [prev] (after nothing, when it
    begins behind a separator), the others have none at all. *)
Lemma pieces_no_boundary in_sep prev s :
  Forall (fun p => no_boundary None p = true) (pieces in_sep prev s) /\
  (in_sep = false ->
   forall p, head (pieces in_sep prev s) = Some p -> no_boundary prev p = true).
Proof.
  revert in_sep prev. induction s as [|c s IH]; intros in_sep prev.
  { split; [by repeat constructor|]. by intros _ p [= <-]. }
  cbn [pieces]. destruct (in_sep && is_space c) eqn:Hskip.
  { split; [apply IH|]. intros ->. discriminate. }
  destruct (is_space c && after_terminator prev) eqn:Hsep.
  { split; [constructor; [done|apply IH]|]. by intros _ p [= <-]. }
  destruct (IH false (Some c)) as [Hall Hhead].
  destruct (pieces false (Some c) s) as [|p ps] eqn:Hp; [by apply pieces_nonempty in Hp|].
  cbn [cons_head]. apply Forall_cons in Hall as [_ Hps].
  specialize (Hhead eq_refl p eq_refl). split.
  - constructor; [|done]. cbn [no_boundary after_terminator]. by rewrite andb_false_r.
  - intros _ q [= <-]. cbn [no_boundary]. by rewrite Hsep, Hhead.
Qed.

(** *** A text without boundary is one piece *)
Lemma pieces_single prev s : no_boundary prev s = true -> pieces false prev s = [s].
Proof.
  revert prev. induction s as [|c s IH]; intros prev; [done|].
  cbn [no_boundary pieces andb]. intros [Hc Hs]%andb_prop.
  apply negb_true_iff in Hc. by rewrite Hc, (IH _ Hs).
Qed.

(** *** Splitting at a boundary *)

(** Behind a separator, and after a code unit that is no terminator, the
    pieces differ only by the white space the first one begins with. *)
Lemma pieces_leading_space prev b :
  after_terminator prev = false ->
  exists w p ps,
    Forall (fun c => is_space c = true) w /\
    pieces false prev b = (w ++ p) :: ps /\
    pieces true prev b = p :: ps.
Proof.
  revert prev. induction b as [|c b IH]; intros prev Hprev.
  { by exists [], [], []. }
  cbn [pieces andb]. rewrite Hprev, andb_false_r.
  destruct (is_space c) eqn:Hc.
  - destruct (IH (Some c)) as (w & p & ps & Hw & -> & ->).
    { by apply space_not_terminator. }
    exists (c :: w), p, ps. split; [by constructor|done].
  - destruct (pieces false (Some c) b) as [|p ps] eqn:Hp;
      [by apply pieces_nonempty in Hp|].
    by exists [], (c :: p), ps.
Qed.

Lemma trim_leading_space w p :
  Forall (fun c => is_space c = true) w -> trim (w ++ p) = trim p.
Proof. intros Hw. unfold trim. by rewrite trimStart_spaces. Qed.

Lemma pieces_skip_spaces (w b : Str) :
  w <> [] -> Forall (fun c => is_space c = true) w ->
  exists x,
    is_space x = true /\
    forall prev', pieces true prev' (w ++ b) = pieces true (Some x) b.
Proof.
  intros Hne Hw. induction Hw as [|c w Hc Hw IH]; [done|].
  destruct w as [|d w].
  - exists c. split; [done|]. intros prev'. cbn [app pieces andb]. by rewrite Hc.
  - destruct (IH ltac:(done)) as (x & Hx & Hskip). exists x. split; [done|].
    intros prev'. cbn [app pieces andb]. rewrite Hc.
    change (d :: w ++ b) with ((d :: w) ++ b). apply Hskip.
Qed.

Lemma pieces_at_boundary in_sep prev a t w b :
  is_terminator t = true ->
  w <> [] -> Forall (fun c => is_space c = true) w ->
  exists x,
    is_space x = true /\
    pieces in_sep prev (a ++ t :: w ++ b)
    = pieces in_sep prev (a ++ [t]) ++ pieces true (Some x) b.
Proof.
  intros Ht Hne Hw.
  destruct w as [|c w]; [done|]. apply Forall_cons in Hw as [Hc Hw].
  assert (exists x, is_space x = true /\
            pieces true (Some c) (w ++ b) = pieces true (Some x) b) as (x & Hx & Hskip).
  { destruct w as [|d w]; [by exists c|].
    destruct (pieces_skip_spaces (d :: w) b ltac:(done) Hw) as (x & Hx & H).
    exists x. by rewrite H. }
  exists x. split; [done|].
  revert in_sep prev. induction a as [|y a IH]; intros in_sep prev.
  - cbn [app pieces]. rewrite (terminator_not_space t Ht), andb_false_r. cbn [andb].
    cbn [after_terminator]. rewrite Hc, Ht. cbn [andb cons_head app]. by rewrite Hskip.
  - cbn [app pieces]. destruct (in_sep && is_space y); [apply IH|].
    destruct (is_space y && after_terminator prev); [by rewrite IH|].
    rewrite IH. apply cons_head_app, pieces_nonempty.
Qed.

Lemma sentences_of_pieces (b : Str) x :
  is_space x = true ->
  List.filter (fun s => 5 <? length s) (map trim (pieces true (Some x) b))
  = splitIntoSentences b.
Proof.
  intros Hx. unfold splitIntoSentences, split.
  destruct (pieces_leading_space None b eq_refl) as (w & p & ps & Hw & Hf & Ht).
  assert (pieces true None b = pieces true (Some x) b) as Hsame.
  { clear. destruct b as [|c b]; [done|]. cbn [pieces andb]. by destruct (is_space c). }
  rewrite Hf, <- Hsame, Ht. cbn [map]. by rewrite trim_leading_space.
Qed.

End boundary_facts.

(** X17: no sentence [splitIntoSentences] returns can be split further:
    inside a sentence no white space follows ".", "?" or "!". *)
Theorem sentences_hold_no_boundary (text s l1 l2 : Sentences.Str) (c d : N) :
  In s (Sentences.splitIntoSentences text) ->
  s = l1 ++ c :: d :: l2 ->
  Sentences.is_terminator c = true ->
  Sentences.is_space d = false.
Proof.
  intros (_ & p & Hp & Hs)%in_sentences Hshape.
  apply (no_boundary_adjacent None l1 c d l2). rewrite <- Hshape, Hs.
  apply (no_boundary_part _ p (trim_part_of p)).
  destruct (pieces_no_boundary false None text) as [Hall _].
  rewrite Forall_forall in Hall. by apply Hall, list_elem_of_In.
Qed.

Lemma sentences_hold_no_boundary_witness :
  Sentences.is_space 72 = false.
Proof.
  apply (sentences_hold_no_boundary
           [46; 72; 101; 108; 108; 111; 46; 32; 119; 111; 114; 108; 100; 115]%N
           [46; 72; 101; 108; 108; 111; 46]%N
           [] [101; 108; 108; 111; 46]%N 46%N 72%N).
  - vm_compute. left. reflexivity.
  - reflexivity.
  - reflexivity.
Defined.

(** X18: a text in which no white space follows ".", "?" or "!" is not
    split: it gives its trimmed self when that is longer than five code
    units, and nothing otherwise. *)
Theorem text_without_boundary_is_one_sentence (text : Sentences.Str) :
  Sentences.no_boundary None text = true ->
  Sentences.splitIntoSentences text
  = if 5 <? length (Sentences.trim text) then [Sentences.trim text] else [].
Proof.
  intros H. unfold Sentences.splitIntoSentences, Sentences.split.
  by rewrite (pieces_single None text H).
Qed.

Lemma text_without_boundary_is_one_sentence_witness :
  Sentences.splitIntoSentences [32; 72; 105; 46; 116; 104; 101; 114; 101; 32]%N
  = [[72; 105; 46; 116; 104; 101; 114; 101]%N].
Proof.
  exact (text_without_boundary_is_one_sentence
           [32; 72; 105; 46; 116; 104; 101; 114; 101; 32]%N eq_refl).
Defined.

(** X19: white space after ".", "?" or "!" separates: the sentences of
    a text are those of the part up to the terminator followed by those
    of the part behind the white space. *)
Theorem sentences_split_at_boundary (a w b : Sentences.Str) (t : N) :
  Sentences.is_terminator t = true ->
  w <> [] ->
  Forall (fun c => Sentences.is_space c = true) w ->
  Sentences.splitIntoSentences (a ++ t :: w ++ b)
  = Sentences.splitIntoSentences (a ++ [t]) ++ Sentences.splitIntoSentences b.
Proof.
  intros Ht Hne Hw.
  destruct (pieces_at_boundary false None a t w b Ht Hne Hw) as (x & Hx & Hsplit).
  unfold Sentences.splitIntoSentences at 1. unfold Sentences.split. rewrite Hsplit.
  rewrite map_app, List.filter_app. f_equal. by apply sentences_of_pieces.
Qed.

Lemma sentences_split_at_boundary_witness :
  Sentences.splitIntoSentences Sentences.sample_text
  = Sentences.splitIntoSentences
      [72; 101; 108; 108; 111; 32; 119; 111; 114; 108; 100; 46; 32;
       72; 111; 119; 32; 97; 114; 101; 32; 121; 111; 117; 63]%N
    ++ Sentences.splitIntoSentences [70; 105; 110; 101; 46]%N.
Proof.
  apply (sentences_split_at_boundary
           [72; 101; 108; 108; 111; 32; 119; 111; 114; 108; 100; 46; 32;
            72; 111; 119; 32; 97; 114; 101; 32; 121; 111; 117]%N
           [32; 32]%N [70; 105; 110; 101; 46]%N 63%N).
  - reflexivity.
  - discriminate.
  - repeat constructor.
Defined.

(** * From a file to its text pairs *)

Section extract_facts.
Import Sentences Extract.

Lemma trim_empty_spaces s : trim s = [] -> Forall (fun c => is_space c = true) s.
Proof.
  unfold trim. intros Ht.
  destruct (trimStart_suffix s) as (w & Hs & Hw).
  destruct (trimEnd_prefix (trimStart s)) as (w' & Hs' & Hw').
  rewrite Hs, Hs', Ht. by apply Forall_app.
Qed.

Lemma part_of_spaces p s :
  part_of p s -> Forall (fun c => is_space c = true) s ->
  Forall (fun c => is_space c = true) p.
Proof. intros (l1 & l2 & ->) H. by apply Forall_app in H as [_ [H _]%Forall_app]. Qed.

Lemma part_of_length p s : part_of p s -> length p <= length s.
Proof. intros (l1 & l2 & ->). rewrite !length_app. lia. Qed.

Lemma sentence_in_text text s :
  In s (splitIntoSentences text) ->
  5 < length s /\ part_of s text /\ (forall c, head s = Some c -> is_space c = false).
Proof.
  intros (Hlen & p & Hp & ->)%in_sentences. repeat split; [done| |apply trim_head].
  apply (part_of_trans _ p); [apply trim_part_of|]. by apply pieces_part_of in Hp.
Qed.

Lemma no_sentence_in_spaces text :
  Forall (fun c => is_space c = true) text -> splitIntoSentences text = [].
Proof.
  intros Hsp. destruct (splitIntoSentences text) as [|s l] eqn:Hs; [done|].
  destruct (sentence_in_text text s) as (Hlen & Hpart & Hhead); [rewrite Hs; by left|].
  apply part_of_spaces in Hpart; [|done].
  destruct s as [|c s]; [cbn in Hlen; lia|].
  apply Forall_cons in Hpart as [Hc _]. by rewrite (Hhead c eq_refl) in Hc.
Qed.

Lemma pairs_from_spec i pages p :
  In p (pairs_from i pages) ->
  exists j items,
    pages !! j = Some items /\
    p = pdfPair (i + j + 1) (History.original p) /\
    In (History.original p) (splitIntoSentences (pageText items)).
Proof.
  revert i. induction pages as [|items rest IH]; intros i; [done|].
  cbn [pairs_from]. rewrite in_app_iff, in_map_iff. intros [(s & <- & Hs)|Hin].
  - exists 0, items. by rewrite Nat.add_0_r.
  - destruct (IH _ Hin) as (j & items' & Hj & Hp & Hs).
    exists (S j), items'. split; [done|]. split; [|done].
    by replace (i + S j + 1) with (S i + j + 1) by lia.
Qed.

Lemma pairs_from_sorted i pages :
  StronglySorted le (pageOf <$> pairs_from i pages) /\
  Forall (fun p => i < pageOf p) (pairs_from i pages).
Proof.
  revert i. induction pages as [|items rest IH]; intros i.
  { split; constructor. }
  cbn [pairs_from]. destruct (IH (S i)) as [Hsorted Hlow].
  assert (Forall (fun p => pageOf p = i + 1)
            (map (pdfPair (i + 1)) (splitIntoSentences (pageText items)))) as Hhere.
  { apply Forall_forall. by intros p (s & <- & _)%list_elem_of_In%in_map_iff. }
  split.
  - rewrite fmap_app. apply StronglySorted_app_2; [|clear Hsorted Hlow|done].
    + intros m n (p & -> & Hp)%list_elem_of_fmap (q & -> & Hq)%list_elem_of_fmap.
      rewrite Forall_forall in Hhere, Hlow.
      specialize (Hhere p Hp). specialize (Hlow q Hq). lia.
    + induction Hhere as [|p l Hp Hl IHl]; [constructor|].
      cbn [fmap list_fmap]. constructor; [done|].
      apply Forall_fmap. eapply Forall_impl; [exact Hl|]. cbn. intros q Hq. lia.
  - apply Forall_app. split.
    + eapply Forall_impl; [exact Hhere|]. cbn. lia.
    + eapply Forall_impl; [exact Hlow|]. cbn. lia.
Qed.

Lemma pairs_from_nil i pages :
  pairs_from i pages = [] ->
  Forall (fun items => splitIntoSentences (pageText items) = []) pages.
Proof.
  revert i. induction pages as [|items rest IH]; intros i; [constructor|].
  cbn [pairs_from]. intros [Hm Hr]%app_eq_nil. constructor; [|by apply (IH (S i))].
  by destruct (splitIntoSentences (pageText items)).
Qed.

Lemma length_zero_nil {A} (l : list A) : (length l =? 0) = true <-> l = [].
Proof. by destruct l. Qed.

End extract_facts.

(** X20: a text file is turned into pairs exactly when
    [splitIntoSentences] finds a sentence in it; then the pairs are its
    sentences in order, all pending, without translation and without
    page, and the text is longer than five code units.  Otherwise the
    block throws one of its two messages: a file of white space only, or
    one without a part of more than five code units between boundaries,
    is rejected. *)
Theorem text_file_gives_its_sentences_or_fails (fullText : Sentences.Str) :
  match Extract.initialPairs (Extract.PlainText fullText) with
  | Extract.Shown pairs =>
      pairs <> [] /\
      5 < length fullText /\
      pairs = map Extract.textPair (Sentences.splitIntoSentences fullText)
  | Extract.Failed message =>
      Sentences.splitIntoSentences fullText = [] /\
      (message = Extract.EMPTY_FILE \/ message = Extract.NO_TEXT)
  end.
Proof.
  unfold Extract.initialPairs.
  destruct ((length fullText =? 0) || (length (Sentences.trim fullText) =? 0)) eqn:Hempty.
  - split; [|by left]. apply no_sentence_in_spaces.
    apply orb_prop in Hempty as [H|H]; apply length_zero_nil in H.
    + by rewrite H.
    + by apply trim_empty_spaces.
  - destruct (Sentences.splitIntoSentences fullText) as [|s l] eqn:Hs.
    + cbn. by split; [|right].
    + cbn [map length Nat.eqb]. repeat split; [done|].
      destruct (sentence_in_text fullText s) as (Hlen & Hpart%part_of_length & _);
        [rewrite Hs; by left|]. lia.
Qed.

(** X21: the pairs extracted from a PDF are ordered by page; each of
    them is pending, without translation, and holds a sentence of the
    text of the page whose number it bears, the number being one more
    than the index of the page.  The block throws exactly when no page
    has a sentence. *)
Theorem pdf_pairs_follow_the_pages (pages : list (list Sentences.Str)) :
  match Extract.initialPairs (Extract.PDF pages) with
  | Extract.Shown pairs =>
      pairs <> [] /\
      StronglySorted le (Extract.pageOf <$> pairs) /\
      Forall (fun p =>
                exists j items,
                  pages !! j = Some items /\
                  p = Extract.pdfPair (j + 1) (History.original p) /\
                  In (History.original p)
                     (Sentences.splitIntoSentences (Extract.pageText items)))
             pairs
  | Extract.Failed message =>
      message = Extract.NO_TEXT /\
      Forall (fun items => Sentences.splitIntoSentences (Extract.pageText items) = [])
             pages
  end.
Proof.
  unfold Extract.initialPairs, Extract.extractSentencesFromPDF.
  destruct (Extract.pairs_from 0 pages) as [|p l] eqn:Hp.
  - cbn. split; [done|]. by apply (pairs_from_nil 0).
  - cbn [length Nat.eqb]. rewrite <- Hp. split; [by rewrite Hp|]. split.
    + apply pairs_from_sorted.
    + apply Forall_forall. intros q Hq%list_elem_of_In.
      destruct (pairs_from_spec 0 pages q Hq) as (j & items & Hj & Hq' & Hs).
      by exists j, items.
Qed.

Example pdf_pairs_sample :
  Extract.initialPairs
    (Extract.PDF [ [ [72; 101; 108; 108; 111]; [119; 111; 114; 108; 100; 46] ]%N;
                   [ [79; 107; 46] ]%N;
                   [ Sentences.sample_text ] ])
  = Extract.Shown
      [ Extract.pdfPair 1 [72; 101; 108; 108; 111; 32; 119; 111; 114; 108; 100; 46]%N;
        Extract.pdfPair 3 [72; 101; 108; 108; 111; 32; 119; 111; 114; 108; 100; 46]%N;
        Extract.pdfPair 3 [72; 111; 119; 32; 97; 114; 101; 32; 121; 111; 117; 63]%N ].
Proof. reflexivity. Qed.
